(** * Family grocery list: the store, the identity resolver, the join
      workflow of the bot's start command and the item endpoints.

    The tables of [models.py] are lists of rows; a request handler of
    [main.py] is a function from the store before the request to a result
    that is either the committed store with the returned value, or the
    exception the handler raised (the session is then closed without a
    commit and the store stays as it was).

    No query of [main.py] has an ORDER BY: the position of a row in a list
    is the model's own (an INSERT is put last, an UPDATE is made in place),
    and the database may return the same rows in another order. The values
    are those the columns hold: a telegram_id is a BigInteger and a string
    has no character U+0000; the driver refuses other values before any row
    is read or written, which the model leaves out. *)

From Stdlib Require Import ZArith List String Ascii Bool Lia Permutation.
Import ListNotations.
Open Scope string_scope.
Open Scope list_scope.
Open Scope Z_scope.

(** ** Rows ([models.py])

    A column declared without [primary_key] is nullable and is an [option];
    primary keys are never null. *)

Module Family.
Record t : Type := mk { id : Z; invite_code : option string }.
End Family.

Module User.
Record t : Type := mk {
  telegram_id : Z;
  username : option string;
  family_id : option Z }.
End User.

Module Item.
Record t : Type := mk {
  id : string;
  text : option string;
  is_bought : option bool;
  category : option string;
  family_id : option Z }.
End Item.

Record Store : Type := mkStore {
  families : list Family.t;
  users : list User.t;
  items : list Item.t }.

(** ** Request bodies ([main.py], the pydantic models) *)

Record ItemCreate : Type := mkItemCreate {
  ic_id : string;
  ic_text : string;
  ic_is_bought : bool;
  ic_category : string }.

(** [ItemUpdate]: every field is [Optional[...] = None]. *)
Record ItemUpdate : Type := mkItemUpdate {
  iu_text : option string;
  iu_is_bought : option bool;
  iu_category : option string }.

(** A key of the JSON body of PUT /items/{item_id}: missing, present with
    the value null, or present with a value. *)
Inductive field (A : Type) : Type :=
| Absent
| Null
| Value (a : A).
Arguments Absent {A}.
Arguments Null {A}.
Arguments Value {A} a.

Record UpdateBody : Type := mkUpdateBody {
  ub_text : field string;
  ub_is_bought : field bool;
  ub_category : field string }.

(** What [Optional[T] = None] makes of a key: the default None when the key
    is missing, None when it is null, the value otherwise. *)
Definition optional_field {A : Type} (f : field A) : option A :=
  match f with
  | Absent => None
  | Null => None
  | Value a => Some a
  end.

Definition parse_ItemUpdate (b : UpdateBody) : ItemUpdate :=
  {| iu_text := optional_field (ub_text b);
     iu_is_bought := optional_field (ub_is_bought b);
     iu_category := optional_field (ub_category b) |}.

(** ** Exceptions and results *)

Inductive Error : Type :=
| HTTPException (status_code : Z) (detail : string)
| IntegrityError.

Definition user_not_found : Error := HTTPException 404 "User not found".
Definition item_not_found : Error := HTTPException 404 "Item not found".

Inductive result (A : Type) : Type :=
| Ok (s : Store) (a : A)
| Raise (e : Error).
Arguments Ok {A} s a.
Arguments Raise {A} e.

(** The store once the request is over: what was committed, or the store
    of before when the handler raised. *)
Definition store_after {A : Type} (s : Store) (r : result A) : Store :=
  match r with
  | Ok s' _ => s'
  | Raise _ => s
  end.

Definition error_of {A : Type} (r : result A) : option Error :=
  match r with
  | Ok _ _ => None
  | Raise e => Some e
  end.

(** ** Comparisons used by the queries *)

Definition opt_Z_eqb (a b : option Z) : bool :=
  match a, b with
  | Some x, Some y => x =? y
  | None, None => true
  | _, _ => false
  end.

Definition opt_string_eqb (a b : option string) : bool :=
  match a, b with
  | Some x, Some y => String.eqb x y
  | None, None => true
  | _, _ => false
  end.

(** ** Queries

    [select(...).where(...)] followed by [.scalars().first()] is the first
    row of the table that satisfies the condition, [.all()] is every such
    row, in the order of the list. A column compared with a Python value that is
    None matches the rows where the column is null. *)

(** [select(User).where(User.telegram_id == telegram_id)], first row. *)
Definition select_user (s : Store) (telegram_id : Z) : option User.t :=
  find (fun u => User.telegram_id u =? telegram_id) (users s).

(** [select(Family).where(Family.invite_code == code)], first row. *)
Definition select_family_by_code (s : Store) (code : string) : option Family.t :=
  find (fun f => opt_string_eqb (Family.invite_code f) (Some code)) (families s).

(** [select(Item).where(Item.family_id == family_id)], all rows. *)
Definition select_items_of_family (s : Store) (family_id : option Z) : list Item.t :=
  filter (fun i => opt_Z_eqb (Item.family_id i) family_id) (items s).

(** [select(Item).where(Item.id == item_id, Item.family_id == family_id)],
    first row. *)
Definition select_item (s : Store) (item_id : string) (family_id : option Z)
  : option Item.t :=
  find (fun i => String.eqb (Item.id i) item_id
                 && opt_Z_eqb (Item.family_id i) family_id) (items s).

(** ** Constraints of the schema *)

(** [ForeignKey("families.id")]: a null reference, or the id of a row of
    [families]. *)
Definition fk_family (s : Store) (family_id : option Z) : bool :=
  match family_id with
  | None => true
  | Some f => existsb (fun r => Family.id r =? f) (families s)
  end.

(** The surrogate key the database gives to the next row of [families]:
    one past the largest id in the table, 1 in an empty table. *)
Definition next_family_id (s : Store) : Z :=
  fold_right (fun f acc => Z.max (Family.id f + 1) acc) 1 (families s).

(** ** Writes *)

(** INSERT INTO families: [invite_code] is unique. *)
Definition insert_family (s : Store) (invite_code : string) : result Family.t :=
  if existsb (fun f => opt_string_eqb (Family.invite_code f) (Some invite_code))
             (families s)
  then Raise IntegrityError
  else
    let new_family := Family.mk (next_family_id s) (Some invite_code) in
    Ok {| families := families s ++ [new_family];
          users := users s;
          items := items s |} new_family.

(** INSERT INTO users: [telegram_id] is the primary key, [family_id]
    references [families]. *)
Definition insert_user (s : Store) (u : User.t) : result User.t :=
  if existsb (fun r => User.telegram_id r =? User.telegram_id u) (users s)
     || negb (fk_family s (User.family_id u))
  then Raise IntegrityError
  else Ok {| families := families s;
             users := users s ++ [u];
             items := items s |} u.

(** UPDATE users SET family_id = ... WHERE telegram_id = ... *)
Definition set_user_family (s : Store) (u : User.t) (family_id : Z)
  : result User.t :=
  if negb (fk_family s (Some family_id))
  then Raise IntegrityError
  else
    let u' := User.mk (User.telegram_id u) (User.username u) (Some family_id) in
    Ok {| families := families s;
          users := map (fun r => if User.telegram_id r =? User.telegram_id u
                                 then User.mk (User.telegram_id r) (User.username r)
                                              (Some family_id)
                                 else r) (users s);
          items := items s |} u'.

(** INSERT INTO items: [id] is the primary key, [family_id] references
    [families]. *)
Definition insert_item (s : Store) (i : Item.t) : result Item.t :=
  if existsb (fun r => String.eqb (Item.id r) (Item.id i)) (items s)
     || negb (fk_family s (Item.family_id i))
  then Raise IntegrityError
  else Ok {| families := families s;
             users := users s;
             items := items s ++ [i] |} i.

(** DELETE FROM items WHERE id = ... *)
Definition delete_item_row (s : Store) (i : Item.t) : Store :=
  {| families := families s;
     users := users s;
     items := filter (fun r => negb (String.eqb (Item.id r) (Item.id i))) (items s) |}.

(** The assignments of [update_item], lines 197-202: a field of the request
    that is not None replaces the attribute, a field that is None leaves it. *)
Definition apply_updates (updates : ItemUpdate) (item : Item.t) : Item.t :=
  let item :=
    match iu_text updates with
    | Some t => Item.mk (Item.id item) (Some t) (Item.is_bought item)
                        (Item.category item) (Item.family_id item)
    | None => item
    end in
  let item :=
    match iu_is_bought updates with
    | Some b => Item.mk (Item.id item) (Item.text item) (Some b)
                        (Item.category item) (Item.family_id item)
    | None => item
    end in
  let item :=
    match iu_category updates with
    | Some c => Item.mk (Item.id item) (Item.text item) (Item.is_bought item)
                        (Some c) (Item.family_id item)
    | None => item
    end in
  item.

(** UPDATE items SET ... WHERE id = ..., with the assignments made on the
    loaded row. *)
Definition update_item_row (s : Store) (item : Item.t) (updates : ItemUpdate) : Store :=
  {| families := families s;
     users := users s;
     items := map (fun r => if String.eqb (Item.id r) (Item.id item)
                            then apply_updates updates r else r) (items s) |}.

(** ** Identity resolver ([ensure_user_and_family], lines 67-82)

    [uuid4_hex8] is the value of [uuid.uuid4().hex[:8]] drawn by the call,
    read only when the user is new. *)
Definition ensure_user_and_family (s : Store) (telegram_id : Z)
    (username : option string) (uuid4_hex8 : string) : result User.t :=
  match select_user s telegram_id with
  | Some user => Ok s user
  | None =>
      let invite_code := uuid4_hex8 in
      match insert_family s invite_code with
      | Raise e => Raise e
      | Ok s1 new_family =>
          insert_user s1 (User.mk telegram_id username (Some (Family.id new_family)))
      end
  end.

(** ** Item endpoints *)

(** GET /items, lines 156-165. *)
Definition get_items (s : Store) (telegram_id : Z) : result (list Item.t) :=
  match select_user s telegram_id with
  | None => Raise user_not_found
  | Some user => Ok s (select_items_of_family s (User.family_id user))
  end.

(** POST /items, lines 167-183. *)
Definition create_item (s : Store) (item : ItemCreate) (telegram_id : Z)
  : result Item.t :=
  match select_user s telegram_id with
  | None => Raise user_not_found
  | Some user =>
      let new_item := Item.mk (ic_id item) (Some (ic_text item))
                              (Some (ic_is_bought item)) (Some (ic_category item))
                              (User.family_id user) in
      insert_item s new_item
  end.

(** PUT /items/{item_id}, lines 185-205. *)
Definition update_item (s : Store) (item_id : string) (updates : ItemUpdate)
    (telegram_id : Z) : result Item.t :=
  match select_user s telegram_id with
  | None => Raise user_not_found
  | Some user =>
      match select_item s item_id (User.family_id user) with
      | None => Raise item_not_found
      | Some item => Ok (update_item_row s item updates) (apply_updates updates item)
      end
  end.

(** The same endpoint from the JSON body of the request. *)
Definition put_item (s : Store) (item_id : string) (body : UpdateBody)
    (telegram_id : Z) : result Item.t :=
  update_item s item_id (parse_ItemUpdate body) telegram_id.

(** DELETE /items/{item_id}, lines 207-221; the returned value is the
    status of the response. *)
Definition delete_item (s : Store) (item_id : string) (telegram_id : Z)
  : result string :=
  match select_user s telegram_id with
  | None => Raise user_not_found
  | Some user =>
      match select_item s item_id (User.family_id user) with
      | None => Raise item_not_found
      | Some item => Ok (delete_item_row s item) "deleted"
      end
  end.

(** ** Strings of the bot's command text

    A character is a code point below 256. *)

(** [str.isspace] on one character: the separators of [str.split()]. *)
Definition isspace (c : ascii) : bool :=
  let n := N_of_ascii c in
  ((9 <=? n) && (n <=? 13) || (28 <=? n) && (n <=? 32)
   || (n =? 133) || (n =? 160))%N.

(** [str.split()] without argument: the maximal runs of characters that are
    not whitespace, in order; [word] is the run being read. *)
Fixpoint split_from (word : string) (s : string) : list string :=
  match s with
  | EmptyString => if String.eqb word "" then [] else [word]
  | String c rest =>
      if isspace c
      then (if String.eqb word "" then split_from "" rest
            else word :: split_from "" rest)
      else split_from (word ++ String c "") rest
  end.

Definition split (s : string) : list string := split_from "" s.

(** [s.startswith(p)]. *)
Definition startswith (s p : string) : bool := String.prefix p s.

(** [s.replace(old, new)] for a non-empty [old], scanning left to right:
    [skip] is the number of characters of the occurrence just found that
    are still to be passed over. *)
Fixpoint replace_from (old new : string) (skip : nat) (s : string) : string :=
  match s with
  | EmptyString => EmptyString
  | String c rest =>
      match skip with
      | S k => replace_from old new k rest
      | O =>
          if String.prefix old s
          then (new ++ replace_from old new (Nat.pred (String.length old)) rest)%string
          else String c (replace_from old new 0 rest)
      end
  end.

(** [s.replace("", new)]: [new] before every character and at the end. *)
Fixpoint replace_empty (new : string) (s : string) : string :=
  match s with
  | EmptyString => new
  | String c rest => (new ++ String c (replace_empty new rest))%string
  end.

(** [s.replace(old, new)]: every occurrence of [old], not overlapping,
    from the left. *)
Definition replace (s old new : string) : string :=
  if String.eqb old "" then replace_empty new s else replace_from old new 0 s.

(** ** The bot's start command ([cmd_start], lines 84-126) *)

Record TgUser : Type := mkTgUser {
  tg_id : Z;
  tg_username : option string }.

Record Message : Type := mkMessage {
  from_user : option TgUser;
  text : string }.

(** The replies of [message.answer], by the line that sends them. *)
Inductive Reply : Type :=
| JoinedFamily          (* line 111: joined the family successfully *)
| AlreadyInFamily       (* line 113: already in this family *)
| WelcomeJoined         (* line 119: welcome, joined the family *)
| InvalidInviteCode     (* line 121: wrong invite code *)
| WelcomeDefault.       (* line 126: welcome to the application *)

(** What a run of the handler leaves: the store, the replies sent in order,
    and the exception that ended it, if any. *)
Record Outcome : Type := mkOutcome {
  out_store : Store;
  out_replies : list Reply;
  out_error : option Error }.

(** Lines 89-90: [args[1] if len(args) > 1 else None]. *)
Definition invite_code_arg (message_text : string) : option string :=
  let args := split message_text in
  nth_error args 1.

(** Lines 96-97: the code the family is looked up with, None when the test
    of line 96 fails. *)
Definition lookup_code (invite_code : option string) : option string :=
  match invite_code with
  | Some invite_code =>
      if negb (String.eqb invite_code "") && startswith invite_code "invite_"
      then Some (replace invite_code "invite_" "")
      else None
  | None => None
  end.

Definition cmd_start (s : Store) (message : Message) (uuid4_hex8 : string)
  : Outcome :=
  match from_user message with
  | None => mkOutcome s [] None
  | Some from =>
      let telegram_id := tg_id from in
      let username := tg_username from in
      let invite_code := invite_code_arg (text message) in
      match lookup_code invite_code with
      | Some code =>
          match select_family_by_code s code with
          | Some family =>
              match select_user s telegram_id with
              | Some user =>
                  if negb (opt_Z_eqb (User.family_id user) (Some (Family.id family)))
                  then
                    match set_user_family s user (Family.id family) with
                    | Ok s' _ => mkOutcome s' [JoinedFamily] None
                    | Raise e => mkOutcome s [] (Some e)
                    end
                  else mkOutcome s [AlreadyInFamily] None
              | None =>
                  match insert_user s (User.mk telegram_id username
                                               (Some (Family.id family))) with
                  | Ok s' _ => mkOutcome s' [WelcomeJoined] None
                  | Raise e => mkOutcome s [] (Some e)
                  end
              end
          | None =>
              let r := ensure_user_and_family s telegram_id username uuid4_hex8 in
              mkOutcome (store_after s r) [InvalidInviteCode] (error_of r)
          end
      | None =>
          match ensure_user_and_family s telegram_id username uuid4_hex8 with
          | Ok s' _ => mkOutcome s' [WelcomeDefault] None
          | Raise e => mkOutcome s [] (Some e)
          end
      end
  end.

(** The JSON body of POST /items: the four keys of [ItemCreate], and a
    key "family_id" the client may add; [ItemCreate] declares no such field
    and a pydantic model drops the keys it does not declare. *)
Record CreateBody : Type := mkCreateBody {
  cb_id : string;
  cb_text : string;
  cb_is_bought : bool;
  cb_category : string;
  cb_family_id : option Z }.

Definition parse_ItemCreate (b : CreateBody) : ItemCreate :=
  {| ic_id := cb_id b;
     ic_text := cb_text b;
     ic_is_bought := cb_is_bought b;
     ic_category := cb_category b |}.

(** POST /items from the JSON body of the request. *)
Definition post_item (s : Store) (body : CreateBody) (telegram_id : Z)
  : result Item.t :=
  create_item s (parse_ItemCreate body) telegram_id.

(** ** Runs of several requests *)

(** POST /items requests, each with the telegram_id of its caller, handled
    one after the other; a request that raises leaves the store as it was. *)
Fixpoint create_all (s : Store) (reqs : list (Z * ItemCreate)) : Store :=
  match reqs with
  | [] => s
  | (telegram_id, item) :: reqs =>
      create_all (store_after s (create_item s item telegram_id)) reqs
  end.

(** The same start command sent again, once for each draw of the list. *)
Definition start_again (message : Message) (s : Store) (draws : list string)
  : Store :=
  fold_left (fun s d => out_store (cmd_start s message d)) draws s.

(** ** Notions used by the statements *)

(** The body with every null key taken away. *)
Definition drop_null {A : Type} (f : field A) : field A :=
  match f with
  | Null => Absent
  | _ => f
  end.

Definition drop_nulls (b : UpdateBody) : UpdateBody :=
  {| ub_text := drop_null (ub_text b);
     ub_is_bought := drop_null (ub_is_bought b);
     ub_category := drop_null (ub_category b) |}.

Definition empty_body : UpdateBody :=
  {| ub_text := Absent; ub_is_bought := Absent; ub_category := Absent |}.

(** What an applied key leaves in the column. *)
Definition applied {A : Type} (f : field A) (prior : option A) : option A :=
  match f with
  | Value a => Some a
  | _ => prior
  end.

(** Some row of [items] has this id and this family_id. *)
Definition item_in_family (s : Store) (item_id : string) (family_id : option Z)
  : Prop :=
  exists i, In i (items s) /\ Item.id i = item_id /\ Item.family_id i = family_id.

(** No row of [items] has this id, whatever its family. *)
Definition item_absent (s : Store) (item_id : string) : Prop :=
  forall i, In i (items s) -> Item.id i <> item_id.

(** A row after the request, against the same row before it: same key, and
    no column that held a value holds null. *)
Definition no_new_null (r r' : Item.t) : Prop :=
  Item.id r' = Item.id r
  /\ Item.family_id r' = Item.family_id r
  /\ (Item.text r <> None -> Item.text r' <> None)
  /\ (Item.is_bought r <> None -> Item.is_bought r' <> None)
  /\ (Item.category r <> None -> Item.category r' <> None).

(** The rows of [users] that carry a telegram_id. *)
Definition memberships (s : Store) (telegram_id : Z) : list User.t :=
  filter (fun u => User.telegram_id u =? telegram_id) (users s).

(** The marker of an invite argument, and the argument built from a code. *)
Definition marker : string := "invite_".

Definition invite_argument (code : string) : string := (marker ++ code)%string.

(** The argument with the marker taken from its front and nothing else
    removed, as the interface describes the token [invite_<code>]; None when
    the argument does not start with the marker. *)
Definition code_after_marker (invite_code : string) : option string :=
  if String.prefix marker invite_code
  then Some (String.substring (String.length marker)
                              (String.length invite_code - String.length marker)
                              invite_code)
  else None.

(** [old] occurs in [s]. *)
Fixpoint occurs (old s : string) : bool :=
  String.prefix old s
  || match s with
     | EmptyString => false
     | String _ rest => occurs old rest
     end.

(** The constraints [models.py] puts on the tables: primary keys are
    unique, an invite code belongs to one Family, and every family_id is
    null or the id of a Family. *)
Definition store_ok (s : Store) : Prop :=
  NoDup (map Family.id (families s))
  /\ NoDup (map User.telegram_id (users s))
  /\ NoDup (map Item.id (items s))
  /\ (forall f g code,
        In f (families s) -> In g (families s) ->
        Family.invite_code f = Some code -> Family.invite_code g = Some code ->
        f = g)
  /\ (forall u, In u (users s) -> fk_family s (User.family_id u) = true)
  /\ (forall i, In i (items s) -> fk_family s (Item.family_id i) = true).

(** ** Sample data *)

Definition family_1 : Family.t := Family.mk 1 (Some "1a2b3c4d").
Definition family_2 : Family.t := Family.mk 2 (Some "cafe0042").
Definition anna : User.t := User.mk 100 (Some "anna") (Some 1).
Definition boris : User.t := User.mk 200 None (Some 2).
Definition milk : Item.t :=
  Item.mk "i1" (Some "Milk") (Some false) (Some "dairy") (Some 1).
Definition bread : Item.t :=
  Item.mk "i2" (Some "Bread") (Some true) (Some "bakery") (Some 2).

Definition sample : Store :=
  {| families := [family_1; family_2];
     users := [anna; boris];
     items := [milk; bread] |}.

(** The store before anybody came. *)
Definition empty_store : Store := {| families := []; users := []; items := [] |}.

(** A store with one family and nobody in it. *)
Definition solo : Store :=
  {| families := [family_1]; users := []; items := [] |}.

Definition eggs : ItemCreate := mkItemCreate "i3" "Eggs" false "dairy".
Definition salt : ItemCreate := mkItemCreate "i4" "Salt" false "spices".
Definition rice : ItemCreate := mkItemCreate "i5" "Rice" true "grains".

(** Creates of the two families, interleaved. *)
Definition interleaved : list (Z * ItemCreate) :=
  [(100, eggs); (200, salt); (100, rice)].

Definition from_anna : TgUser := mkTgUser 100 (Some "anna").
Definition from_carl : TgUser := mkTgUser 300 (Some "carl").

(** Start commands: an invite to the first family, an invite nobody issued,
    and an invite whose code contains the marker. *)
Definition join_family_1 : Message :=
  mkMessage (Some from_carl) "/start invite_1a2b3c4d".

Definition join_unknown : Message :=
  mkMessage (Some from_carl) "/start invite_deadbeef".

Definition inner_marker_code : string := "ainvite_b".

(** A store where a family has the code "ab". *)
Definition family_ab : Family.t := Family.mk 3 (Some "ab").

Definition with_ab : Store :=
  {| families := [family_1; family_2; family_ab];
     users := [anna; boris];
     items := [milk; bread] |}.

(** ** POST /auth ([auth_user], lines 138-154) *)

Record UserInfo : Type := mkUserInfo {
  ui_telegram_id : Z;
  ui_username : option string;
  ui_first_name : option string;
  ui_last_name : option string;
  ui_photo_url : option string }.

(** [select(Family).where(Family.id == family_id)], first row. *)
Definition select_family_by_id (s : Store) (family_id : option Z)
  : option Family.t :=
  find (fun f => opt_Z_eqb (Some (Family.id f)) family_id) (families s).

(** [select(User).where(User.family_id == family_id)], all rows. *)
Definition select_members (s : Store) (family_id : Z) : list User.t :=
  filter (fun u => opt_Z_eqb (User.family_id u) (Some family_id)) (users s).

(** The dictionary the endpoint returns. *)
Record AuthResponse : Type := mkAuthResponse {
  resp_user : User.t;
  resp_family : Family.t;
  resp_members : list User.t }.

(** What ends the endpoint early: an exception of the resolver, or the
    AttributeError of [family.id] at line 147 when no Family was found. *)
Inductive AuthError : Type :=
| Raised (e : Error)
| AttributeError.

(** The store the request leaves (the resolver commits before the two
    reads) and the response or the exception. *)
Record AuthOutcome : Type := mkAuthOutcome {
  auth_store : Store;
  auth_result : AuthResponse + AuthError }.

Definition auth_user (s : Store) (user_info : UserInfo) (uuid4_hex8 : string)
  : AuthOutcome :=
  match ensure_user_and_family s (ui_telegram_id user_info)
                               (ui_username user_info) uuid4_hex8 with
  | Raise e => mkAuthOutcome s (inr (Raised e))
  | Ok s1 user =>
      match select_family_by_id s1 (User.family_id user) with
      | None => mkAuthOutcome s1 (inr AttributeError)
      | Some family =>
          let members := select_members s1 (Family.id family) in
          mkAuthOutcome s1 (inl (mkAuthResponse user family members))
      end
  end.

(** ** Requests, one after the other *)

Inductive Request : Type :=
| Start (message : Message) (uuid4_hex8 : string)
| Auth (user_info : UserInfo) (uuid4_hex8 : string)
| GetItems (telegram_id : Z)
| CreateItem (item : ItemCreate) (telegram_id : Z)
| UpdateItem (item_id : string) (updates : ItemUpdate) (telegram_id : Z)
| DeleteItem (item_id : string) (telegram_id : Z).

(** The store a request leaves. *)
Definition handle (s : Store) (r : Request) : Store :=
  match r with
  | Start message uuid4_hex8 => out_store (cmd_start s message uuid4_hex8)
  | Auth user_info uuid4_hex8 => auth_store (auth_user s user_info uuid4_hex8)
  | GetItems telegram_id => store_after s (get_items s telegram_id)
  | CreateItem item telegram_id => store_after s (create_item s item telegram_id)
  | UpdateItem item_id updates telegram_id =>
      store_after s (update_item s item_id updates telegram_id)
  | DeleteItem item_id telegram_id =>
      store_after s (delete_item s item_id telegram_id)
  end.

Definition run (s : Store) (requests : list Request) : Store :=
  fold_left handle requests s.

(** ** More notions used by the statements *)

(** Two partial updates in a row, as one: a field of the second wins over
    the same field of the first. *)
Definition later_field {A : Type} (first second : option A) : option A :=
  match second with
  | Some a => Some a
  | None => first
  end.

Definition merge_updates (u1 u2 : ItemUpdate) : ItemUpdate :=
  {| iu_text := later_field (iu_text u1) (iu_text u2);
     iu_is_bought := later_field (iu_is_bought u1) (iu_is_bought u2);
     iu_category := later_field (iu_category u1) (iu_category u2) |}.

(** The row-wise effect of PUT /items/{item_id} on a listing. *)
Definition updated_row (item_id : string) (updates : ItemUpdate) (r : Item.t)
  : Item.t :=
  if String.eqb (Item.id r) item_id then apply_updates updates r else r.

(** Every User references a Family of the store. *)
Definition every_user_in_family (s : Store) : Prop :=
  forall u, In u (users s) ->
            exists f, In f (families s) /\ User.family_id u = Some (Family.id f).

(** What a request made for one telegram_id may do to the store outside
    [items]: the Families are those of before and new ones, the
    telegram_ids of the Users are those of before and new ones, each as
    often as before, and the User of any other telegram_id is as before. *)
Definition sender_step (telegram_id : Z) (s s' : Store) : Prop :=
  items s' = items s
  /\ (exists l, Permutation (families s') (families s ++ l))
  /\ (exists l, Permutation (map User.telegram_id (users s'))
                            (map User.telegram_id (users s) ++ l))
  /\ (forall other, other <> telegram_id ->
                    select_user s' other = select_user s other).

(** Some character of the string is whitespace. *)
Fixpoint has_space (s : string) : bool :=
  match s with
  | EmptyString => false
  | String c rest => isspace c || has_space rest
  end.

(** The text of the start command a deep link with this code sends. *)
Definition start_command (code : string) : string :=
  ("/start " ++ invite_argument code)%string.

(** A user whose family_id is null. *)
Definition stray : User.t := User.mk 400 None None.

Definition with_stray : Store :=
  {| families := [family_1]; users := [stray]; items := [] |}.

(** * Properties *)

(** ** Sanity checks of the model on concrete inputs *)

Example split_start : split "/start invite_1a2b3c4d" = ["/start"; "invite_1a2b3c4d"].
Proof. reflexivity. Qed.

Example split_runs : split "  /start   x  y " = ["/start"; "x"; "y"].
Proof. reflexivity. Qed.

Example replace_marker : replace "invite_1a2b3c4d" "invite_" "" = "1a2b3c4d".
Proof. reflexivity. Qed.

Example replace_overlap : replace "aaa" "aa" "b" = "ba".
Proof. reflexivity. Qed.

Example replace_empty_old : replace "abc" "" "-" = "-a-b-c-".
Proof. reflexivity. Qed.

Example lookup_code_plain : lookup_code (invite_code_arg "/start") = None.
Proof. reflexivity. Qed.

Example lookup_code_other : lookup_code (invite_code_arg "/start hello") = None.
Proof. reflexivity. Qed.

(** ** Comparisons *)

Lemma opt_Z_eqb_eq (a b : option Z) : opt_Z_eqb a b = true <-> a = b.
Proof.
  destruct a as [x|], b as [y|]; simpl; try (split; congruence).
  rewrite Z.eqb_eq. split; congruence.
Qed.

Lemma opt_Z_eqb_refl (a : option Z) : opt_Z_eqb a a = true.
Proof. apply opt_Z_eqb_eq. reflexivity. Qed.

Lemma opt_string_eqb_eq (a b : option string) : opt_string_eqb a b = true <-> a = b.
Proof.
  destruct a as [x|], b as [y|]; simpl; try (split; congruence).
  rewrite String.eqb_eq. split; congruence.
Qed.

(** ** First row, some row *)

Section Tables.
Context {A : Type}.
Variable p : A -> bool.

Lemma find_none_existsb (l : list A) : find p l = None <-> existsb p l = false.
Proof.
  induction l as [|x l IH]; simpl.
  - tauto.
  - destruct (p x); simpl; [split; discriminate | exact IH].
Qed.

Lemma find_app_none (l l' : list A) : find p l = None -> find p (l ++ l') = find p l'.
Proof.
  induction l as [|x l IH]; simpl; [reflexivity|].
  destruct (p x); [discriminate | exact IH].
Qed.

Lemma find_map_stable (f : A -> A) (l : list A) :
  (forall x, p (f x) = p x) -> find p (map f l) = option_map f (find p l).
Proof.
  intros Hf. induction l as [|x l IH]; simpl; [reflexivity|].
  rewrite Hf. destruct (p x); [reflexivity | exact IH].
Qed.

Lemma find_none_forall (l : list A) : find p l = None <-> forall x, In x l -> p x = false.
Proof.
  split.
  - intros H x Hx. exact (find_none p l H x Hx).
  - induction l as [|x l IH]; simpl; intros H; [reflexivity|].
    rewrite (H x (or_introl eq_refl)). apply IH. intros y Hy. apply H. now right.
Qed.

Lemma map_same (f : A -> A) (l : list A) : (forall x, f x = x) -> map f l = l.
Proof.
  intros Hf. induction l as [|x l IH]; simpl; [reflexivity|]. now rewrite Hf, IH.
Qed.

End Tables.

Lemma store_eta (s : Store) :
  {| families := families s; users := users s; items := items s |} = s.
Proof. destruct s; reflexivity. Qed.

(** ** GET /items *)

Lemma select_items_of_family_In (s : Store) (f : option Z) (i : Item.t) :
  In i (select_items_of_family s f) <-> In i (items s) /\ Item.family_id i = f.
Proof.
  unfold select_items_of_family. rewrite filter_In, opt_Z_eqb_eq. tauto.
Qed.

(** C1. After any sequence of creates by any callers (in particular creates
    of two families interleaved), GET /items of a provisioned caller returns
    the rows of [items] whose family_id is the caller's family_id, and no
    other row; none of them is listed for a caller of another family; the
    store is left as it is. *)
Theorem get_items_family_scope (s0 : Store) (reqs : list (Z * ItemCreate))
    (telegram_id : Z) (user : User.t) :
  select_user (create_all s0 reqs) telegram_id = Some user ->
  exists l,
    get_items (create_all s0 reqs) telegram_id = Ok (create_all s0 reqs) l
    /\ (forall i, In i l <->
                  In i (items (create_all s0 reqs))
                  /\ Item.family_id i = User.family_id user)
    /\ (forall other_id other l',
          select_user (create_all s0 reqs) other_id = Some other ->
          User.family_id other <> User.family_id user ->
          get_items (create_all s0 reqs) other_id = Ok (create_all s0 reqs) l' ->
          forall i, In i l -> ~ In i l')
    /\ l = filter (fun i => opt_Z_eqb (Item.family_id i) (User.family_id user))
                  (items (create_all s0 reqs)).
Proof.
  intros Hu. unfold get_items. rewrite Hu.
  eexists. split; [reflexivity|]. split; [|split].
  - intros i. apply select_items_of_family_In.
  - intros other_id other l' Ho Hne Hl' i Hi Hi'.
    rewrite Ho in Hl'. injection Hl' as <-.
    apply select_items_of_family_In in Hi, Hi'. apply Hne.
    destruct Hi as [_ <-], Hi' as [_ <-]. reflexivity.
  - reflexivity.
Qed.

Lemma get_items_family_scope_witness :
  exists l,
    get_items (create_all sample interleaved) 100
    = Ok (create_all sample interleaved) l
    /\ (forall i, In i l <->
                  In i (items (create_all sample interleaved))
                  /\ Item.family_id i = User.family_id anna)
    /\ (forall other_id other l',
          select_user (create_all sample interleaved) other_id = Some other ->
          User.family_id other <> User.family_id anna ->
          get_items (create_all sample interleaved) other_id
          = Ok (create_all sample interleaved) l' ->
          forall i, In i l -> ~ In i l')
    /\ l = filter (fun i => opt_Z_eqb (Item.family_id i) (User.family_id anna))
                  (items (create_all sample interleaved)).
Proof.
  apply (get_items_family_scope sample interleaved 100 anna).
  reflexivity.
Defined.

Example get_items_interleaved :
  get_items (create_all sample interleaved) 100
  = Ok (create_all sample interleaved)
       [milk;
        Item.mk "i3" (Some "Eggs") (Some false) (Some "dairy") (Some 1);
        Item.mk "i5" (Some "Rice") (Some true) (Some "grains") (Some 1)].
Proof. reflexivity. Qed.

(** ** Identity resolver *)

Lemma next_family_id_above (s : Store) (f : Family.t) :
  In f (families s) -> Family.id f < next_family_id s.
Proof.
  unfold next_family_id. induction (families s) as [|g l IH]; simpl.
  - tauto.
  - intros [-> | H]; [lia | specialize (IH H); lia].
Qed.

Lemma select_family_by_code_none (s : Store) (code : string) :
  select_family_by_code s code = None <->
  forall f, In f (families s) -> Family.invite_code f <> Some code.
Proof.
  unfold select_family_by_code. rewrite find_none_forall. split.
  - intros H f Hf E. specialize (H f Hf). apply opt_string_eqb_eq in E. congruence.
  - intros H f Hf. specialize (H f Hf).
    destruct (opt_string_eqb (Family.invite_code f) (Some code)) eqn:E;
      [apply opt_string_eqb_eq in E; contradiction | reflexivity].
Qed.

Lemma select_family_by_code_some (s : Store) (code : string) (f : Family.t) :
  select_family_by_code s code = Some f ->
  In f (families s) /\ Family.invite_code f = Some code.
Proof.
  intros H. apply find_some in H. now rewrite opt_string_eqb_eq in H.
Qed.

Lemma fk_family_In (s : Store) (f : Family.t) :
  In f (families s) -> fk_family s (Some (Family.id f)) = true.
Proof.
  intros H. simpl. apply existsb_exists. exists f. split; [exact H | apply Z.eqb_refl].
Qed.

Lemma ensure_existing (s : Store) (telegram_id : Z) (username : option string)
    (uuid4_hex8 : string) (user : User.t) :
  select_user s telegram_id = Some user ->
  ensure_user_and_family s telegram_id username uuid4_hex8 = Ok s user.
Proof. intros H. unfold ensure_user_and_family. now rewrite H. Qed.

Lemma ensure_new (s : Store) (telegram_id : Z) (username : option string)
    (uuid4_hex8 : string) :
  select_user s telegram_id = None ->
  select_family_by_code s uuid4_hex8 = None ->
  ensure_user_and_family s telegram_id username uuid4_hex8
  = Ok {| families := families s
                      ++ [Family.mk (next_family_id s) (Some uuid4_hex8)];
          users := users s
                   ++ [User.mk telegram_id username (Some (next_family_id s))];
          items := items s |}
       (User.mk telegram_id username (Some (next_family_id s))).
Proof.
  intros Hu Hf. unfold ensure_user_and_family, insert_family. rewrite Hu.
  unfold select_family_by_code in Hf. apply find_none_existsb in Hf. rewrite Hf.
  unfold insert_user. cbn [users families items User.telegram_id User.family_id Family.id].
  unfold select_user in Hu. apply find_none_existsb in Hu. rewrite Hu.
  unfold fk_family. cbn [families]. rewrite existsb_app. simpl.
  rewrite Z.eqb_refl, orb_true_r. reflexivity.
Qed.

Lemma ensure_collision (s : Store) (telegram_id : Z) (username : option string)
    (uuid4_hex8 : string) (f : Family.t) :
  select_user s telegram_id = None ->
  In f (families s) ->
  Family.invite_code f = Some uuid4_hex8 ->
  ensure_user_and_family s telegram_id username uuid4_hex8 = Raise IntegrityError.
Proof.
  intros Hu Hin Hc. unfold ensure_user_and_family, insert_family. rewrite Hu.
  replace (existsb _ (families s)) with true; [reflexivity|].
  symmetry. apply existsb_exists. exists f. split; [exact Hin|].
  apply opt_string_eqb_eq. exact Hc.
Qed.

Lemma select_user_appended (s : Store) (fs : list Family.t) (u : User.t) :
  select_user s (User.telegram_id u) = None ->
  select_user {| families := fs; users := users s ++ [u]; items := items s |}
              (User.telegram_id u) = Some u.
Proof.
  unfold select_user. cbn [users]. intros H. rewrite (find_app_none _ _ _ H).
  simpl. now rewrite Z.eqb_refl.
Qed.

(** C2, as the code has it. If a User with the id exists, the resolver
    returns it and the store is the same. Otherwise, when the code drawn is
    the invite_code of no Family, it appends one Family carrying that code
    under an id no Family had, and one User that references it, and changes
    nothing else; a second call for the same id, whatever it draws, returns
    that User and leaves the store as the first call left it. *)
Theorem ensure_user_and_family_rows (s : Store) (telegram_id : Z)
    (username : option string) (uuid4_hex8 : string) :
  (forall user, select_user s telegram_id = Some user ->
     ensure_user_and_family s telegram_id username uuid4_hex8 = Ok s user)
  /\ (select_user s telegram_id = None ->
      select_family_by_code s uuid4_hex8 = None ->
      exists new_family s',
        ensure_user_and_family s telegram_id username uuid4_hex8
        = Ok s' (User.mk telegram_id username (Some (Family.id new_family)))
        /\ families s' = families s ++ [new_family]
        /\ users s' = users s
                      ++ [User.mk telegram_id username (Some (Family.id new_family))]
        /\ items s' = items s
        /\ Family.invite_code new_family = Some uuid4_hex8
        /\ (forall f, In f (families s) -> Family.id f <> Family.id new_family)
        /\ (forall username' draw',
              ensure_user_and_family s' telegram_id username' draw'
              = Ok s' (User.mk telegram_id username (Some (Family.id new_family))))).
Proof.
  split.
  - intros user H. now apply ensure_existing.
  - intros Hu Hf.
    exists (Family.mk (next_family_id s) (Some uuid4_hex8)). eexists.
    split; [apply (ensure_new s telegram_id username uuid4_hex8 Hu Hf)|].
    cbn [families users items Family.id Family.invite_code].
    repeat split.
    + intros f Hin. apply next_family_id_above in Hin. lia.
    + intros username' draw'. apply ensure_existing.
      apply (select_user_appended s _ (User.mk telegram_id username _)). exact Hu.
Qed.

Lemma ensure_user_and_family_rows_witness :
  ensure_user_and_family sample 100 None "0badf00d" = Ok sample anna
  /\ exists new_family s',
       ensure_user_and_family sample 300 (Some "carl") "0badf00d"
       = Ok s' (User.mk 300 (Some "carl") (Some (Family.id new_family)))
       /\ families s' = families sample ++ [new_family]
       /\ users s' = users sample
                     ++ [User.mk 300 (Some "carl") (Some (Family.id new_family))]
       /\ items s' = items sample
       /\ Family.invite_code new_family = Some "0badf00d"
       /\ (forall f, In f (families sample) -> Family.id f <> Family.id new_family)
       /\ (forall username' draw',
             ensure_user_and_family s' 300 username' draw'
             = Ok s' (User.mk 300 (Some "carl") (Some (Family.id new_family)))).
Proof.
  split.
  - apply (proj1 (ensure_user_and_family_rows sample 100 None "0badf00d") anna).
    reflexivity.
  - apply (proj2 (ensure_user_and_family_rows sample 300 (Some "carl") "0badf00d"));
      reflexivity.
Defined.

(** C2 as it is written fails when the code drawn is already taken: the
    caller has no User, the call raises, and the store has no more Family
    and no more User than before. *)
Lemma ensure_user_and_family_code_taken :
  select_user sample 300 = None
  /\ ensure_user_and_family sample 300 (Some "carl") "cafe0042" = Raise IntegrityError
  /\ ~ (exists new_family new_user s',
          ensure_user_and_family sample 300 (Some "carl") "cafe0042" = Ok s' new_user
          /\ families s' = families sample ++ [new_family]
          /\ users s' = users sample ++ [new_user]).
Proof.
  split; [reflexivity|]. split; [reflexivity|].
  intros (f & u & s' & H & _). discriminate H.
Qed.

(** C9, as the code has it. When the caller has no User and the code drawn
    is the invite_code of an existing Family, the resolver draws no other
    code: the uniqueness conflict is raised to the caller and no row is
    created. When no Family has the code drawn, provisioning succeeds and
    the new Family is the only one with that code. *)
Theorem ensure_user_and_family_conflict (s : Store) (telegram_id : Z)
    (username : option string) (uuid4_hex8 : string) :
  select_user s telegram_id = None ->
  ((exists f, In f (families s) /\ Family.invite_code f = Some uuid4_hex8) ->
   ensure_user_and_family s telegram_id username uuid4_hex8 = Raise IntegrityError
   /\ store_after s (ensure_user_and_family s telegram_id username uuid4_hex8) = s)
  /\ ((forall f, In f (families s) -> Family.invite_code f <> Some uuid4_hex8) ->
      exists s' user new_family,
        ensure_user_and_family s telegram_id username uuid4_hex8 = Ok s' user
        /\ In new_family (families s')
        /\ User.family_id user = Some (Family.id new_family)
        /\ Family.invite_code new_family = Some uuid4_hex8
        /\ (forall f, In f (families s') ->
                      Family.invite_code f = Some uuid4_hex8 -> f = new_family)).
Proof.
  intros Hu. split.
  - intros (f & Hin & Hc).
    rewrite (ensure_collision s telegram_id username uuid4_hex8 f Hu Hin Hc).
    split; reflexivity.
  - intros Hfree. apply select_family_by_code_none in Hfree.
    rewrite (ensure_new s telegram_id username uuid4_hex8 Hu Hfree).
    do 3 eexists. split; [reflexivity|].
    cbn [families User.family_id Family.id Family.invite_code].
    split; [apply in_or_app; right; left; reflexivity|].
    split; [reflexivity|]. split; [reflexivity|].
    intros f Hin Hc. apply in_app_or in Hin. destruct Hin as [Hin | [<- | []]].
    + rewrite select_family_by_code_none in Hfree. now apply Hfree in Hin.
    + reflexivity.
Qed.

Lemma ensure_user_and_family_conflict_witness :
  (ensure_user_and_family solo 7 None "1a2b3c4d" = Raise IntegrityError
   /\ store_after solo (ensure_user_and_family solo 7 None "1a2b3c4d") = solo)
  /\ exists s' user new_family,
       ensure_user_and_family solo 7 None "00c0ffee" = Ok s' user
       /\ In new_family (families s')
       /\ User.family_id user = Some (Family.id new_family)
       /\ Family.invite_code new_family = Some "00c0ffee"
       /\ (forall f, In f (families s') ->
                     Family.invite_code f = Some "00c0ffee" -> f = new_family).
Proof.
  split.
  - apply (proj1 (ensure_user_and_family_conflict solo 7 None "1a2b3c4d" eq_refl)).
    exists family_1. split; [left; reflexivity | reflexivity].
  - apply (proj2 (ensure_user_and_family_conflict solo 7 None "00c0ffee" eq_refl)).
    intros f [<- | []]. discriminate.
Defined.

(** C9 as it is written fails: the code drawn for a new user is the one of
    the only Family of the store, and the call ends with the uniqueness
    conflict instead of a User. *)
Lemma ensure_user_and_family_no_retry :
  select_user solo 7 = None
  /\ select_family_by_code solo "1a2b3c4d" = Some family_1
  /\ error_of (ensure_user_and_family solo 7 None "1a2b3c4d") = Some IntegrityError
  /\ ~ (exists s' user, ensure_user_and_family solo 7 None "1a2b3c4d" = Ok s' user).
Proof.
  split; [reflexivity|]. split; [reflexivity|]. split; [reflexivity|].
  intros (s' & user & H). discriminate H.
Qed.

(** ** PUT and DELETE /items/{item_id}: the owned item *)

Lemma select_item_some (s : Store) (item_id : string) (fam : option Z) (i : Item.t) :
  select_item s item_id fam = Some i ->
  In i (items s) /\ Item.id i = item_id /\ Item.family_id i = fam.
Proof.
  intros H. apply find_some in H. destruct H as [Hin H].
  apply andb_true_iff in H. destruct H as [H1 H2].
  apply String.eqb_eq in H1. apply opt_Z_eqb_eq in H2. auto.
Qed.

Lemma select_item_none (s : Store) (item_id : string) (fam : option Z) :
  select_item s item_id fam = None <-> ~ item_in_family s item_id fam.
Proof.
  unfold select_item. rewrite find_none_forall. split.
  - intros H (i & Hin & Hid & Hfam). specialize (H i Hin). cbv beta in H.
    rewrite Hid, Hfam, String.eqb_refl, opt_Z_eqb_refl in H. discriminate.
  - intros H i Hin.
    destruct (String.eqb (Item.id i) item_id) eqn:E1; [|reflexivity].
    destruct (opt_Z_eqb (Item.family_id i) fam) eqn:E2; [|reflexivity].
    exfalso. apply H. exists i. apply String.eqb_eq in E1. apply opt_Z_eqb_eq in E2.
    auto.
Qed.

Lemma item_absent_not_in_family (s : Store) (item_id : string) (fam : option Z) :
  item_absent s item_id -> ~ item_in_family s item_id fam.
Proof. intros H (i & Hin & Hid & _). exact (H i Hin Hid). Qed.

(** C3. For a provisioned caller, PUT and DELETE on an item id end with the
    not-found error exactly when no Item has that id together with the
    caller's family_id, and they can end with no other error. Then the store
    is left as it was, rows of other families included, and the result is
    the one obtained from any store in which no Item has that id at all. *)
Theorem item_not_found_scope (s : Store) (item_id : string) (updates : ItemUpdate)
    (telegram_id : Z) (user : User.t) :
  select_user s telegram_id = Some user ->
  (update_item s item_id updates telegram_id = Raise item_not_found
   <-> ~ item_in_family s item_id (User.family_id user))
  /\ (delete_item s item_id telegram_id = Raise item_not_found
      <-> ~ item_in_family s item_id (User.family_id user))
  /\ (forall e, update_item s item_id updates telegram_id = Raise e ->
                e = item_not_found)
  /\ (forall e, delete_item s item_id telegram_id = Raise e -> e = item_not_found)
  /\ (~ item_in_family s item_id (User.family_id user) ->
      store_after s (update_item s item_id updates telegram_id) = s
      /\ store_after s (delete_item s item_id telegram_id) = s
      /\ forall s2 caller2 user2,
           select_user s2 caller2 = Some user2 ->
           item_absent s2 item_id ->
           update_item s item_id updates telegram_id
           = update_item s2 item_id updates caller2
           /\ delete_item s item_id telegram_id = delete_item s2 item_id caller2).
Proof.
  intros Hu. unfold update_item, delete_item. rewrite Hu.
  destruct (select_item s item_id (User.family_id user)) as [item|] eqn:Hi.
  - assert (Hin : item_in_family s item_id (User.family_id user)).
    { apply select_item_some in Hi. exists item. exact Hi. }
    split; [split; [discriminate | intros H; contradiction]|].
    split; [split; [discriminate | intros H; contradiction]|].
    split; [discriminate|]. split; [discriminate|].
    intros H. contradiction.
  - assert (Hno := proj1 (select_item_none s item_id (User.family_id user)) Hi).
    split; [split; [intros _; exact Hno | reflexivity]|].
    split; [split; [intros _; exact Hno | reflexivity]|].
    split; [intros e [= <-]; reflexivity|].
    split; [intros e [= <-]; reflexivity|].
    intros _. split; [reflexivity|]. split; [reflexivity|].
    intros s2 caller2 user2 Hu2 Habs. rewrite Hu2.
    apply (item_absent_not_in_family s2 item_id (User.family_id user2)) in Habs.
    apply select_item_none in Habs. rewrite Habs. split; reflexivity.
Qed.

Lemma item_not_found_scope_witness :
  (update_item sample "i2" (mkItemUpdate (Some "Rye") None None) 100
   = Raise item_not_found
   <-> ~ item_in_family sample "i2" (User.family_id anna))
  /\ (delete_item sample "i2" 100 = Raise item_not_found
      <-> ~ item_in_family sample "i2" (User.family_id anna))
  /\ (forall e, update_item sample "i2" (mkItemUpdate (Some "Rye") None None) 100
                = Raise e -> e = item_not_found)
  /\ (forall e, delete_item sample "i2" 100 = Raise e -> e = item_not_found)
  /\ (~ item_in_family sample "i2" (User.family_id anna) ->
      store_after sample
        (update_item sample "i2" (mkItemUpdate (Some "Rye") None None) 100) = sample
      /\ store_after sample (delete_item sample "i2" 100) = sample
      /\ forall s2 caller2 user2,
           select_user s2 caller2 = Some user2 ->
           item_absent s2 "i2" ->
           update_item sample "i2" (mkItemUpdate (Some "Rye") None None) 100
           = update_item s2 "i2" (mkItemUpdate (Some "Rye") None None) caller2
           /\ delete_item sample "i2" 100 = delete_item s2 "i2" caller2).
Proof.
  apply (item_not_found_scope sample "i2" (mkItemUpdate (Some "Rye") None None)
                              100 anna).
  reflexivity.
Defined.

(** The item of the other family: the same answer as for an id nobody has,
    and the row is still there. *)
Example foreign_item_intact :
  update_item sample "i2" (mkItemUpdate (Some "Rye") None None) 100
  = Raise item_not_found
  /\ update_item sample "zz" (mkItemUpdate (Some "Rye") None None) 100
     = Raise item_not_found
  /\ delete_item sample "i2" 100 = Raise item_not_found
  /\ delete_item sample "zz" 100 = Raise item_not_found
  /\ In bread (items (store_after sample (delete_item sample "i2" 100)))
  /\ delete_item sample "i2" 200
     = Ok {| families := [family_1; family_2];
             users := [anna; boris];
             items := [milk] |} "deleted".
Proof. repeat split; try reflexivity. simpl. auto. Qed.

(** ** PUT /items/{item_id}: the fields applied *)

Lemma apply_updates_fields (body : UpdateBody) (item : Item.t) :
  Item.id (apply_updates (parse_ItemUpdate body) item) = Item.id item
  /\ Item.family_id (apply_updates (parse_ItemUpdate body) item) = Item.family_id item
  /\ Item.text (apply_updates (parse_ItemUpdate body) item)
     = applied (ub_text body) (Item.text item)
  /\ Item.is_bought (apply_updates (parse_ItemUpdate body) item)
     = applied (ub_is_bought body) (Item.is_bought item)
  /\ Item.category (apply_updates (parse_ItemUpdate body) item)
     = applied (ub_category body) (Item.category item).
Proof.
  destruct body as [[| |t] [| |b] [| |c]]; repeat split; reflexivity.
Qed.

Lemma apply_updates_key (updates : ItemUpdate) (item : Item.t) :
  Item.id (apply_updates updates item) = Item.id item
  /\ Item.family_id (apply_updates updates item) = Item.family_id item.
Proof. destruct updates as [[t|] [b|] [c|]]; split; reflexivity. Qed.

Lemma select_item_updated (s : Store) (item_id : string) (fam : option Z)
    (item : Item.t) (updates : ItemUpdate) :
  select_item s item_id fam = Some item ->
  select_item (update_item_row s item updates) item_id fam
  = Some (apply_updates updates item).
Proof.
  intros H. unfold select_item, update_item_row in *. cbn [items].
  rewrite find_map_stable.
  - rewrite H. simpl. now rewrite String.eqb_refl.
  - intros r. destruct (String.eqb (Item.id r) (Item.id item)); [|reflexivity].
    destruct (apply_updates_key updates r) as [-> ->]. reflexivity.
Qed.

Lemma update_item_row_others (s : Store) (item : Item.t) (updates : ItemUpdate)
    (r : Item.t) :
  Item.id r <> Item.id item ->
  (In r (items (update_item_row s item updates)) <-> In r (items s)).
Proof.
  intros Hne. unfold update_item_row. cbn [items]. rewrite in_map_iff. split.
  - intros (x & Hx & Hin).
    destruct (String.eqb (Item.id x) (Item.id item)) eqn:E.
    + apply String.eqb_eq in E. subst r.
      destruct (apply_updates_key updates x) as [Hid _]. congruence.
    + now subst r.
  - intros Hin. exists r. split; [|exact Hin].
    apply String.eqb_neq in Hne. now rewrite Hne.
Qed.

Lemma update_item_row_empty (s : Store) (item : Item.t) :
  update_item_row s item (mkItemUpdate None None None) = s.
Proof.
  unfold update_item_row. rewrite map_same; [apply store_eta|].
  intros r. now destruct (String.eqb (Item.id r) (Item.id item)).
Qed.

(** C4. On an item the caller's family owns, PUT returns and stores the item
    with every key that carries a value applied and every missing key at its
    prior value: a column differs from before only if the body carries a
    value for it. The id, the family_id, the other tables and the rows of
    other ids are as before, and the empty body changes nothing at all. *)
Theorem update_item_partial (s : Store) (item_id : string) (body : UpdateBody)
    (telegram_id : Z) (user : User.t) (item : Item.t) :
  select_user s telegram_id = Some user ->
  select_item s item_id (User.family_id user) = Some item ->
  exists s' item',
    put_item s item_id body telegram_id = Ok s' item'
    /\ select_item s' item_id (User.family_id user) = Some item'
    /\ Item.id item' = Item.id item
    /\ Item.family_id item' = Item.family_id item
    /\ (ub_text body = Absent -> Item.text item' = Item.text item)
    /\ (ub_is_bought body = Absent -> Item.is_bought item' = Item.is_bought item)
    /\ (ub_category body = Absent -> Item.category item' = Item.category item)
    /\ (forall t, ub_text body = Value t -> Item.text item' = Some t)
    /\ (forall b, ub_is_bought body = Value b -> Item.is_bought item' = Some b)
    /\ (forall c, ub_category body = Value c -> Item.category item' = Some c)
    /\ (Item.text item' <> Item.text item -> exists t, ub_text body = Value t)
    /\ (Item.is_bought item' <> Item.is_bought item ->
        exists b, ub_is_bought body = Value b)
    /\ (Item.category item' <> Item.category item ->
        exists c, ub_category body = Value c)
    /\ families s' = families s
    /\ users s' = users s
    /\ (forall r, Item.id r <> item_id -> (In r (items s') <-> In r (items s)))
    /\ (body = empty_body -> item' = item /\ s' = s).
Proof.
  intros Hu Hi. unfold put_item, update_item. rewrite Hu, Hi.
  do 2 eexists. split; [reflexivity|].
  split; [now apply select_item_updated|].
  destruct (apply_updates_fields body item) as (Hid & Hfam & Ht & Hb & Hc).
  rewrite Hid, Hfam, Ht, Hb, Hc.
  split; [reflexivity|]. split; [reflexivity|].
  split; [now intros ->|]. split; [now intros ->|]. split; [now intros ->|].
  split; [now intros t ->|]. split; [now intros b ->|]. split; [now intros c ->|].
  split; [destruct (ub_text body); simpl; [tauto | tauto | eauto]|].
  split; [destruct (ub_is_bought body); simpl; [tauto | tauto | eauto]|].
  split; [destruct (ub_category body); simpl; [tauto | tauto | eauto]|].
  split; [reflexivity|]. split; [reflexivity|].
  split.
  - intros r Hr. apply update_item_row_others.
    apply select_item_some in Hi. destruct Hi as (_ & -> & _). exact Hr.
  - intros ->. split; [reflexivity | apply update_item_row_empty].
Qed.

Lemma update_item_partial_witness :
  exists s' item',
    put_item sample "i1" empty_body 100 = Ok s' item'
    /\ select_item s' "i1" (User.family_id anna) = Some item'
    /\ Item.id item' = Item.id milk
    /\ Item.family_id item' = Item.family_id milk
    /\ (ub_text empty_body = Absent -> Item.text item' = Item.text milk)
    /\ (ub_is_bought empty_body = Absent -> Item.is_bought item' = Item.is_bought milk)
    /\ (ub_category empty_body = Absent -> Item.category item' = Item.category milk)
    /\ (forall t, ub_text empty_body = Value t -> Item.text item' = Some t)
    /\ (forall b, ub_is_bought empty_body = Value b -> Item.is_bought item' = Some b)
    /\ (forall c, ub_category empty_body = Value c -> Item.category item' = Some c)
    /\ (Item.text item' <> Item.text milk -> exists t, ub_text empty_body = Value t)
    /\ (Item.is_bought item' <> Item.is_bought milk ->
        exists b, ub_is_bought empty_body = Value b)
    /\ (Item.category item' <> Item.category milk ->
        exists c, ub_category empty_body = Value c)
    /\ families s' = families sample
    /\ users s' = users sample
    /\ (forall r, Item.id r <> "i1" -> (In r (items s') <-> In r (items sample)))
    /\ (empty_body = empty_body -> item' = milk /\ s' = sample).
Proof.
  apply (update_item_partial sample "i1" empty_body 100 anna milk); reflexivity.
Defined.

Example update_is_bought_only :
  put_item sample "i1" (mkUpdateBody Absent (Value true) Absent) 100
  = Ok {| families := [family_1; family_2];
          users := [anna; boris];
          items := [Item.mk "i1" (Some "Milk") (Some true) (Some "dairy") (Some 1);
                    bread] |}
       (Item.mk "i1" (Some "Milk") (Some true) (Some "dairy") (Some 1)).
Proof. reflexivity. Qed.

(** ** PUT /items/{item_id}: null keys *)

Lemma parse_drop_nulls (body : UpdateBody) :
  parse_ItemUpdate (drop_nulls body) = parse_ItemUpdate body.
Proof. destruct body as [[| |t] [| |b] [| |c]]; reflexivity. Qed.

Lemma apply_updates_no_new_null (updates : ItemUpdate) (r : Item.t) :
  no_new_null r (apply_updates updates r).
Proof.
  destruct updates as [[t|] [b|] [c|]]; unfold no_new_null; simpl;
    repeat split; trivial; discriminate.
Qed.

Lemma no_new_null_refl (r : Item.t) : no_new_null r r.
Proof. unfold no_new_null. tauto. Qed.

(** C10. A PUT whose body carries null for some keys does what the same
    request does without those keys. Whenever a PUT succeeds, each of text,
    is_bought and category of the returned item is the value the body
    carries for it when there is one, and the prior value otherwise; id by
    id, every row of [items] before the request has its row after it and
    the other way round, and no column of it that held a value holds null
    afterwards. *)
Theorem update_item_null_as_absent (s : Store) (item_id : string)
    (body : UpdateBody) (telegram_id : Z) :
  put_item s item_id body telegram_id = put_item s item_id (drop_nulls body) telegram_id
  /\ forall s' item',
       put_item s item_id body telegram_id = Ok s' item' ->
       exists user item,
         select_user s telegram_id = Some user
         /\ select_item s item_id (User.family_id user) = Some item
         /\ Item.text item' = applied (ub_text body) (Item.text item)
         /\ Item.is_bought item' = applied (ub_is_bought body) (Item.is_bought item)
         /\ Item.category item' = applied (ub_category body) (Item.category item)
         /\ no_new_null item item'
         /\ (forall r, In r (items s) ->
                       exists r', In r' (items s') /\ no_new_null r r')
         /\ (forall r', In r' (items s') ->
                        exists r, In r (items s) /\ no_new_null r r').
Proof.
  split.
  - unfold put_item. now rewrite parse_drop_nulls.
  - intros s' item'. unfold put_item, update_item.
    destruct (select_user s telegram_id) as [user|]; [|discriminate].
    destruct (select_item s item_id (User.family_id user)) as [item|] eqn:Hi;
      [|discriminate].
    intros [= <- <-]. exists user, item.
    destruct (apply_updates_fields body item) as (_ & _ & Ht & Hb & Hc).
    split; [reflexivity|]. split; [exact Hi|].
    split; [exact Ht|]. split; [exact Hb|]. split; [exact Hc|].
    split; [apply apply_updates_no_new_null|].
    assert (Hrow : forall r,
               no_new_null r (if String.eqb (Item.id r) (Item.id item)
                              then apply_updates (parse_ItemUpdate body) r else r)).
    { intros r. destruct (String.eqb (Item.id r) (Item.id item));
        [apply apply_updates_no_new_null | apply no_new_null_refl]. }
    unfold update_item_row. cbn [items]. split.
    + intros r Hin. eexists. split; [|apply Hrow].
      apply in_map_iff. exists r. split; [reflexivity | exact Hin].
    + intros r' Hin. apply in_map_iff in Hin. destruct Hin as (r & <- & Hin).
      exists r. split; [exact Hin | apply Hrow].
Qed.

Lemma update_item_null_as_absent_witness :
  put_item sample "i1" (mkUpdateBody Null (Value true) Null) 100
  = put_item sample "i1" (drop_nulls (mkUpdateBody Null (Value true) Null)) 100
  /\ exists user item,
       select_user sample 100 = Some user
       /\ select_item sample "i1" (User.family_id user) = Some item
       /\ Item.text (Item.mk "i1" (Some "Milk") (Some true) (Some "dairy") (Some 1))
          = applied (@Null string) (Item.text item)
       /\ Item.is_bought (Item.mk "i1" (Some "Milk") (Some true) (Some "dairy") (Some 1))
          = applied (Value true) (Item.is_bought item)
       /\ Item.category (Item.mk "i1" (Some "Milk") (Some true) (Some "dairy") (Some 1))
          = applied (@Null string) (Item.category item)
       /\ no_new_null item
            (Item.mk "i1" (Some "Milk") (Some true) (Some "dairy") (Some 1))
       /\ (forall r, In r (items sample) ->
                     exists r',
                       In r' [Item.mk "i1" (Some "Milk") (Some true) (Some "dairy")
                                      (Some 1); bread]
                       /\ no_new_null r r')
       /\ (forall r',
             In r' [Item.mk "i1" (Some "Milk") (Some true) (Some "dairy") (Some 1);
                    bread] ->
             exists r, In r (items sample) /\ no_new_null r r').
Proof.
  split.
  - apply (proj1 (update_item_null_as_absent sample "i1"
                    (mkUpdateBody Null (Value true) Null) 100)).
  - apply (proj2 (update_item_null_as_absent sample "i1"
                    (mkUpdateBody Null (Value true) Null) 100)
             {| families := [family_1; family_2];
                users := [anna; boris];
                items := [Item.mk "i1" (Some "Milk") (Some true) (Some "dairy") (Some 1);
                          bread] |}
             (Item.mk "i1" (Some "Milk") (Some true) (Some "dairy") (Some 1))).
    reflexivity.
Defined.

(** ** POST /items *)

Lemma In_existsb_id (l : list Item.t) (item_id : string) :
  existsb (fun r => String.eqb (Item.id r) item_id) l = false <->
  forall i, In i l -> Item.id i <> item_id.
Proof.
  split.
  - intros H i Hin E.
    assert (Hx : existsb (fun r => String.eqb (Item.id r) item_id) l = true).
    { apply existsb_exists. exists i. split; [exact Hin|]. now apply String.eqb_eq. }
    congruence.
  - intros H. destruct (existsb _ l) eqn:E; [|reflexivity].
    apply existsb_exists in E. destruct E as (i & Hin & E).
    apply String.eqb_eq in E. now apply H in Hin.
Qed.

(** C6. For a provisioned caller, whenever POST /items inserts a row, the
    row is the one added to [items]: its id, text, is_bought and category
    are those of the body and its family_id is the caller's. A "family_id"
    key put in the body changes nothing. *)
Theorem create_item_family_forced (s : Store) (body : CreateBody)
    (telegram_id : Z) (user : User.t) :
  select_user s telegram_id = Some user ->
  (forall s' row,
     post_item s body telegram_id = Ok s' row ->
     row = Item.mk (cb_id body) (Some (cb_text body)) (Some (cb_is_bought body))
                   (Some (cb_category body)) (User.family_id user)
     /\ Item.family_id row = User.family_id user
     /\ items s' = items s ++ [row]
     /\ families s' = families s
     /\ users s' = users s)
  /\ (forall asserted,
        post_item s (mkCreateBody (cb_id body) (cb_text body) (cb_is_bought body)
                                  (cb_category body) asserted) telegram_id
        = post_item s body telegram_id).
Proof.
  intros Hu. unfold post_item, create_item, insert_item. rewrite Hu.
  cbn [parse_ItemCreate ic_id ic_text ic_is_bought ic_category Item.id Item.family_id
       cb_id cb_text cb_is_bought cb_category].
  split.
  - intros s' row.
    destruct (existsb _ (items s) || negb (fk_family s (User.family_id user)));
      [discriminate|].
    intros [= <- <-]. cbn. repeat split; reflexivity.
  - reflexivity.
Qed.

Lemma create_item_family_forced_witness :
  exists s' row,
    post_item sample (mkCreateBody "i3" "Eggs" false "dairy" (Some 2)) 100 = Ok s' row
    /\ Item.family_id row = Some 1.
Proof.
  eexists _, _. split; [reflexivity|].
  apply (proj1 (create_item_family_forced sample
                  (mkCreateBody "i3" "Eggs" false "dairy" (Some 2)) 100 anna eq_refl)
           _ _ eq_refl).
Defined.

Example create_in_own_family :
  post_item sample (mkCreateBody "i3" "Eggs" false "dairy" (Some 2)) 100
  = Ok {| families := [family_1; family_2];
          users := [anna; boris];
          items := [milk; bread;
                    Item.mk "i3" (Some "Eggs") (Some false) (Some "dairy") (Some 1)] |}
       (Item.mk "i3" (Some "Eggs") (Some false) (Some "dairy") (Some 1)).
Proof. reflexivity. Qed.

Example create_duplicate_id :
  post_item sample (mkCreateBody "i2" "Eggs" false "dairy" None) 100
  = Raise IntegrityError.
Proof. reflexivity. Qed.

(** ** The start command: joining with a valid code *)

Section Filtering.
Context {A : Type}.
Variable p : A -> bool.

Lemma filter_find_none (l : list A) : find p l = None -> filter p l = [].
Proof.
  induction l as [|x l IH]; simpl; [reflexivity|].
  destruct (p x); [discriminate | exact IH].
Qed.

Lemma filter_find_some (l : list A) (x : A) :
  find p l = Some x -> (1 <= List.length (filter p l))%nat.
Proof.
  induction l as [|y l IH]; simpl; [discriminate|].
  destruct (p y); simpl; [lia | exact IH].
Qed.

Lemma filter_map_stable (f : A -> A) (l : list A) :
  (forall x, p (f x) = p x) -> List.length (filter p (map f l)) = List.length (filter p l).
Proof.
  intros Hf. induction l as [|x l IH]; simpl; [reflexivity|].
  rewrite Hf. destruct (p x); simpl; now rewrite IH.
Qed.

End Filtering.

(** The row rewritten by [set_user_family] keeps its key. *)
Lemma moved_row_key (user : User.t) (fid telegram_id : Z) (r : User.t) :
  (User.telegram_id
     (if User.telegram_id r =? User.telegram_id user
      then User.mk (User.telegram_id r) (User.username r) (Some fid) else r)
   =? telegram_id)
  = (User.telegram_id r =? telegram_id).
Proof. now destruct (User.telegram_id r =? User.telegram_id user). Qed.

Lemma join_already_member (s : Store) (message : Message) (from : TgUser)
    (code : string) (family : Family.t) (user : User.t) (draw : string) :
  from_user message = Some from ->
  lookup_code (invite_code_arg (text message)) = Some code ->
  select_family_by_code s code = Some family ->
  select_user s (tg_id from) = Some user ->
  User.family_id user = Some (Family.id family) ->
  cmd_start s message draw = mkOutcome s [AlreadyInFamily] None.
Proof.
  intros Hfrom Hcode Hfam Hu Hmem. unfold cmd_start.
  rewrite Hfrom. cbv zeta. rewrite Hcode, Hfam, Hu, Hmem, opt_Z_eqb_refl.
  reflexivity.
Qed.

(** C5. A start command that carries a valid invite code of family F ends
    without error and leaves its sender with exactly the membership of F:
    the sender's User has family_id F, no Family and no Item changed, and
    [users] holds one row for a sender it did not know and as many rows as
    before for one it knew. A sender who is already a member of F gets the
    already-a-member reply and the store is untouched; so does every repeat
    of the command after the first join, whatever the number of repeats. *)
Theorem join_idempotent (s : Store) (message : Message) (from : TgUser)
    (code : string) (family : Family.t) (uuid4_hex8 : string) :
  from_user message = Some from ->
  lookup_code (invite_code_arg (text message)) = Some code ->
  select_family_by_code s code = Some family ->
  out_error (cmd_start s message uuid4_hex8) = None
  /\ (exists user,
        select_user (out_store (cmd_start s message uuid4_hex8)) (tg_id from)
        = Some user
        /\ User.family_id user = Some (Family.id family))
  /\ (forall user,
        select_user s (tg_id from) = Some user ->
        User.family_id user = Some (Family.id family) ->
        cmd_start s message uuid4_hex8 = mkOutcome s [AlreadyInFamily] None)
  /\ (forall draw,
        cmd_start (out_store (cmd_start s message uuid4_hex8)) message draw
        = mkOutcome (out_store (cmd_start s message uuid4_hex8))
                    [AlreadyInFamily] None)
  /\ (forall draws,
        start_again message (out_store (cmd_start s message uuid4_hex8)) draws
        = out_store (cmd_start s message uuid4_hex8))
  /\ families (out_store (cmd_start s message uuid4_hex8)) = families s
  /\ items (out_store (cmd_start s message uuid4_hex8)) = items s
  /\ List.length (memberships (out_store (cmd_start s message uuid4_hex8)) (tg_id from))
     = Nat.max 1 (List.length (memberships s (tg_id from))).
Proof.
  intros Hfrom Hcode Hfam.
  destruct (select_family_by_code_some s code family Hfam) as [Hin _].
  assert (Hfk := fk_family_In s family Hin).
  (* the store after the first join, and the sender's row in it *)
  assert (H1 : out_error (cmd_start s message uuid4_hex8) = None
               /\ (exists user,
                     select_user (out_store (cmd_start s message uuid4_hex8))
                                 (tg_id from) = Some user
                     /\ User.family_id user = Some (Family.id family))
               /\ families (out_store (cmd_start s message uuid4_hex8)) = families s
               /\ items (out_store (cmd_start s message uuid4_hex8)) = items s
               /\ List.length (memberships (out_store (cmd_start s message uuid4_hex8))
                                      (tg_id from))
                  = Nat.max 1 (List.length (memberships s (tg_id from)))).
  { unfold cmd_start. rewrite Hfrom. cbv zeta. rewrite Hcode, Hfam.
    destruct (select_user s (tg_id from)) as [user|] eqn:Hu.
    - assert (Hn := filter_find_some _ _ _ Hu). fold (memberships s (tg_id from)) in Hn.
      destruct (opt_Z_eqb (User.family_id user) (Some (Family.id family))) eqn:E.
      + apply opt_Z_eqb_eq in E. cbn [negb out_error out_store].
        split; [reflexivity|]. split; [eauto|].
        split; [reflexivity|]. split; [reflexivity|]. lia.
      + cbn [negb]. unfold set_user_family. rewrite Hfk.
        cbn [negb out_error out_store families items].
        split; [reflexivity|]. split.
        * unfold select_user. cbn [users].
          rewrite find_map_stable by (intros r; apply moved_row_key).
          fold (select_user s (tg_id from)). rewrite Hu. simpl.
          rewrite Z.eqb_refl. eexists. split; reflexivity.
        * split; [reflexivity|]. split; [reflexivity|].
          unfold memberships. cbn [users].
          rewrite filter_map_stable by (intros r; apply moved_row_key).
          fold (memberships s (tg_id from)). lia.
    - unfold insert_user. cbn [User.telegram_id User.family_id].
      unfold select_user in Hu. rewrite (proj1 (find_none_existsb _ _) Hu), Hfk.
      cbn [orb negb out_error out_store families items].
      split; [reflexivity|]. split.
      + unfold select_user. cbn [users]. rewrite (find_app_none _ _ _ Hu).
        simpl. rewrite Z.eqb_refl. eexists. split; reflexivity.
      + split; [reflexivity|]. split; [reflexivity|].
        unfold memberships. cbn [users]. rewrite filter_app.
        rewrite (filter_find_none _ _ Hu). simpl. now rewrite Z.eqb_refl. }
  destruct H1 as (Herr & (user1 & Hu1 & Hm1) & Hfams & Hitems & Hlen).
  assert (Hfam1 : select_family_by_code (out_store (cmd_start s message uuid4_hex8))
                                        code = Some family).
  { unfold select_family_by_code. rewrite Hfams. exact Hfam. }
  assert (Hagain : forall draw,
             cmd_start (out_store (cmd_start s message uuid4_hex8)) message draw
             = mkOutcome (out_store (cmd_start s message uuid4_hex8))
                         [AlreadyInFamily] None).
  { intros draw.
    exact (join_already_member _ message from code family user1 draw
                               Hfrom Hcode Hfam1 Hu1 Hm1). }
  split; [exact Herr|]. split; [eauto|].
  split; [intros user Hu Hm;
          exact (join_already_member s message from code family user uuid4_hex8
                                     Hfrom Hcode Hfam Hu Hm)|].
  split; [exact Hagain|].
  split; [|auto].
  intros draws. unfold start_again.
  induction draws as [|d draws IH]; simpl; [reflexivity|].
  rewrite Hagain. exact IH.
Qed.

Lemma join_idempotent_witness :
  out_error (cmd_start sample join_family_1 "0badf00d") = None
  /\ (exists user,
        select_user (out_store (cmd_start sample join_family_1 "0badf00d")) 300
        = Some user
        /\ User.family_id user = Some 1)
  /\ (forall draw,
        cmd_start (out_store (cmd_start sample join_family_1 "0badf00d"))
                  join_family_1 draw
        = mkOutcome (out_store (cmd_start sample join_family_1 "0badf00d"))
                    [AlreadyInFamily] None)
  /\ List.length (memberships (out_store (cmd_start sample join_family_1 "0badf00d"))
                              300) = 1%nat.
Proof.
  destruct (join_idempotent sample join_family_1 from_carl "1a2b3c4d" family_1
                            "0badf00d" eq_refl eq_refl eq_refl)
    as (Herr & Hmember & _ & Hagain & _ & _ & _ & Hlen).
  split; [exact Herr|]. split; [exact Hmember|]. split; [exact Hagain|]. exact Hlen.
Defined.

Example join_then_join_again :
  cmd_start sample join_family_1 "0badf00d"
  = mkOutcome {| families := [family_1; family_2];
                 users := [anna; boris; User.mk 300 (Some "carl") (Some 1)];
                 items := [milk; bread] |} [WelcomeJoined] None
  /\ cmd_start sample (mkMessage (Some from_anna) "/start invite_cafe0042") "0badf00d"
     = mkOutcome {| families := [family_1; family_2];
                    users := [User.mk 100 (Some "anna") (Some 2); boris];
                    items := [milk; bread] |} [JoinedFamily] None
  /\ cmd_start sample (mkMessage (Some from_anna) "/start invite_1a2b3c4d") "0badf00d"
     = mkOutcome sample [AlreadyInFamily] None.
Proof. repeat split; reflexivity. Qed.

(** ** The start command: an unknown code *)

Lemma ensure_extends (s : Store) (telegram_id : Z) (username : option string)
    (uuid4_hex8 : string) :
  exists new_families new_users,
    families (store_after s (ensure_user_and_family s telegram_id username uuid4_hex8))
    = families s ++ new_families
    /\ users (store_after s (ensure_user_and_family s telegram_id username uuid4_hex8))
       = users s ++ new_users
    /\ items (store_after s (ensure_user_and_family s telegram_id username uuid4_hex8))
       = items s
    /\ (List.length new_families <= 1)%nat
    /\ (List.length new_users <= 1)%nat
    /\ (select_user s telegram_id <> None -> new_families = [] /\ new_users = []).
Proof.
  destruct (select_user s telegram_id) as [user|] eqn:Hu.
  - rewrite (ensure_existing s telegram_id username uuid4_hex8 user Hu).
    exists [], []. simpl. rewrite !app_nil_r. repeat split; auto.
  - destruct (select_family_by_code s uuid4_hex8) as [f|] eqn:Hf.
    + apply select_family_by_code_some in Hf. destruct Hf as [Hin Hc].
      rewrite (ensure_collision s telegram_id username uuid4_hex8 f Hu Hin Hc).
      exists [], []. simpl. rewrite !app_nil_r. repeat split; auto; congruence.
    + rewrite (ensure_new s telegram_id username uuid4_hex8 Hu Hf).
      do 2 eexists. cbn [store_after families users items].
      repeat split; simpl; auto; congruence.
Qed.

(** The path of lines 120-123. A start command for which the lookup of
    line 99 finds no Family sends the invalid-code reply and then runs the
    identity resolver: the store and the error it leaves are the resolver's.
    Every row of [families] and [users] is kept as it was; at most one
    Family and one User are added, and none when the sender already had a
    User; [items] is unchanged. *)
Lemma join_unknown_code (s : Store) (message : Message) (from : TgUser)
    (code : string) (uuid4_hex8 : string) :
  from_user message = Some from ->
  lookup_code (invite_code_arg (text message)) = Some code ->
  select_family_by_code s code = None ->
  out_replies (cmd_start s message uuid4_hex8) = [InvalidInviteCode]
  /\ out_store (cmd_start s message uuid4_hex8)
     = store_after s (ensure_user_and_family s (tg_id from) (tg_username from)
                                             uuid4_hex8)
  /\ out_error (cmd_start s message uuid4_hex8)
     = error_of (ensure_user_and_family s (tg_id from) (tg_username from) uuid4_hex8)
  /\ exists new_families new_users,
       families (out_store (cmd_start s message uuid4_hex8))
       = families s ++ new_families
       /\ users (out_store (cmd_start s message uuid4_hex8)) = users s ++ new_users
       /\ items (out_store (cmd_start s message uuid4_hex8)) = items s
       /\ (List.length new_families <= 1)%nat
       /\ (List.length new_users <= 1)%nat
       /\ (select_user s (tg_id from) <> None ->
           new_families = [] /\ new_users = []
           /\ out_store (cmd_start s message uuid4_hex8) = s).
Proof.
  intros Hfrom Hcode Hfam. unfold cmd_start.
  rewrite Hfrom. cbv zeta. rewrite Hcode, Hfam. cbn [out_replies out_store out_error].
  split; [reflexivity|]. split; [reflexivity|]. split; [reflexivity|].
  destruct (ensure_extends s (tg_id from) (tg_username from) uuid4_hex8)
    as (fs & us & Hf & Hu & Hi & Hlf & Hlu & Hsame).
  exists fs, us. repeat (split; [assumption|]).
  intros Hknown. destruct (Hsame Hknown) as [-> ->]. repeat split.
  destruct (select_user s (tg_id from)) as [user|] eqn:E; [|congruence].
  now rewrite (ensure_existing s (tg_id from) (tg_username from) uuid4_hex8 user E).
Qed.

Lemma join_unknown_code_witness :
  out_replies (cmd_start sample join_unknown "0badf00d") = [InvalidInviteCode]
  /\ out_store (cmd_start sample join_unknown "0badf00d")
     = store_after sample
         (ensure_user_and_family sample 300 (Some "carl") "0badf00d")
  /\ out_error (cmd_start sample join_unknown "0badf00d")
     = error_of (ensure_user_and_family sample 300 (Some "carl") "0badf00d")
  /\ exists new_families new_users,
       families (out_store (cmd_start sample join_unknown "0badf00d"))
       = families sample ++ new_families
       /\ users (out_store (cmd_start sample join_unknown "0badf00d"))
          = users sample ++ new_users
       /\ items (out_store (cmd_start sample join_unknown "0badf00d")) = items sample
       /\ (List.length new_families <= 1)%nat
       /\ (List.length new_users <= 1)%nat
       /\ (select_user sample 300 <> None ->
           new_families = [] /\ new_users = []
           /\ out_store (cmd_start sample join_unknown "0badf00d") = sample).
Proof.
  apply (join_unknown_code sample join_unknown from_carl "deadbeef" "0badf00d");
    reflexivity.
Defined.

Example join_unknown_new_sender :
  cmd_start sample join_unknown "0badf00d"
  = mkOutcome {| families := [family_1; family_2; Family.mk 3 (Some "0badf00d")];
                 users := [anna; boris; User.mk 300 (Some "carl") (Some 3)];
                 items := [milk; bread] |} [InvalidInviteCode] None.
Proof. reflexivity. Qed.

Example join_unknown_known_sender :
  cmd_start sample (mkMessage (Some from_anna) "/start invite_deadbeef") "0badf00d"
  = mkOutcome sample [InvalidInviteCode] None.
Proof. reflexivity. Qed.

Example unknown_code_and_draw_taken :
  cmd_start sample join_unknown "cafe0042"
  = mkOutcome sample [InvalidInviteCode] (Some IntegrityError).
Proof. reflexivity. Qed.

(** ** The start command: the code looked up *)

Lemma replace_from_no_occurrence (old new s : string) :
  occurs old s = false -> replace_from old new 0 s = s.
Proof.
  induction s as [|c s IH]; [reflexivity|].
  cbn [occurs]. intros H. apply orb_false_iff in H. destruct H as [Hp Ho].
  cbn [replace_from]. rewrite Hp, (IH Ho). reflexivity.
Qed.

Lemma remove_length_le (old s : string) (k : nat) :
  (String.length (replace_from old "" k s) <= String.length s)%nat.
Proof.
  revert k. induction s as [|c s IH]; intros k; [simpl; lia|].
  cbn [replace_from]. destruct k as [|k].
  - destruct (String.prefix old (String c s)).
    + cbn [append String.length]. specialize (IH (Nat.pred (String.length old))). lia.
    + cbn [String.length]. specialize (IH 0%nat). lia.
  - cbn [String.length]. specialize (IH k). lia.
Qed.

Lemma remove_length_lt (old s : string) :
  old <> "" -> occurs old s = true ->
  (String.length (replace_from old "" 0 s) < String.length s)%nat.
Proof.
  intros Hold. induction s as [|c s IH]; cbn [occurs].
  - destruct old; [contradiction | discriminate].
  - intros H. cbn [replace_from].
    destruct (String.prefix old (String c s)).
    + cbn [append String.length].
      pose proof (remove_length_le old s (Nat.pred (String.length old))). lia.
    + cbn [orb] in H. cbn [String.length]. specialize (IH H). lia.
Qed.

Lemma substring_all (s : string) : String.substring 0 (String.length s) s = s.
Proof. induction s as [|c s IH]; simpl; [reflexivity | now rewrite IH]. Qed.

(** The argument [invite_<code>] passes the test of line 96 and the lookup
    uses [<code>] with every occurrence of the marker removed from it. *)
Lemma lookup_code_invite_argument (code : string) :
  lookup_code (Some (invite_argument code)) = Some (replace code marker "").
Proof.
  unfold lookup_code, invite_argument, marker, startswith, replace. simpl.
  now destruct code.
Qed.

(** Taking the marker from the front of [invite_<code>] gives [<code>]. *)
Lemma code_after_marker_invite_argument (code : string) :
  code_after_marker (invite_argument code) = Some code.
Proof.
  unfold code_after_marker, invite_argument, marker. simpl.
  rewrite Nat.sub_0_r, substring_all. now destruct code.
Qed.

(** X18. The lookup uses exactly [<code>] if and only if the marker does
    not occur in [<code>]. *)
Lemma lookup_code_exact_iff (code : string) :
  lookup_code (Some (invite_argument code)) = Some code
  <-> occurs marker code = false.
Proof.
  rewrite lookup_code_invite_argument. unfold replace, marker. simpl String.eqb.
  split.
  - intros [= H]. destruct (occurs "invite_" code) eqn:E; [|reflexivity].
    apply remove_length_lt in E; [|discriminate]. rewrite H in E. lia.
  - intros H. now rewrite replace_from_no_occurrence.
Qed.

(** C8, at an input where the code departs from it. The argument is the
    marker followed by the code "ainvite_b"; taking the marker from the
    front leaves that code, but the handler looks the family up with "ab",
    and a sender who presents this argument joins the family whose code is
    "ab". *)
Theorem lookup_code_inner_marker :
  invite_code_arg "/start invite_ainvite_b" = Some (invite_argument inner_marker_code)
  /\ code_after_marker (invite_argument inner_marker_code) = Some inner_marker_code
  /\ lookup_code (Some (invite_argument inner_marker_code)) = Some "ab"
  /\ lookup_code (Some (invite_argument inner_marker_code)) <> Some inner_marker_code
  /\ select_family_by_code with_ab inner_marker_code = None
  /\ cmd_start with_ab (mkMessage (Some from_carl) "/start invite_ainvite_b") "0badf00d"
     = mkOutcome {| families := [family_1; family_2; family_ab];
                    users := [anna; boris; User.mk 300 (Some "carl") (Some 3)];
                    items := [milk; bread] |} [WelcomeJoined] None.
Proof.
  split; [reflexivity|]. split; [reflexivity|]. split; [reflexivity|].
  split; [discriminate|]. split; reflexivity.
Qed.

(** An argument [invite_<code>] in whose [<code>] the marker does not occur
    and whose [<code>] is the invite_code of no Family takes the path of
    lines 120-123. *)
Lemma join_unknown_plain_code (s : Store) (message : Message) (from : TgUser)
    (code : string) (uuid4_hex8 : string) :
  from_user message = Some from ->
  invite_code_arg (text message) = Some (invite_argument code) ->
  occurs marker code = false ->
  select_family_by_code s code = None ->
  out_replies (cmd_start s message uuid4_hex8) = [InvalidInviteCode]
  /\ out_store (cmd_start s message uuid4_hex8)
     = store_after s (ensure_user_and_family s (tg_id from) (tg_username from)
                                             uuid4_hex8)
  /\ out_error (cmd_start s message uuid4_hex8)
     = error_of (ensure_user_and_family s (tg_id from) (tg_username from) uuid4_hex8).
Proof.
  intros Hfrom Harg Hocc Hfam.
  assert (Hcode : lookup_code (invite_code_arg (text message)) = Some code).
  { rewrite Harg, lookup_code_invite_argument. unfold replace, marker.
    simpl String.eqb. cbv iota. now rewrite replace_from_no_occurrence. }
  destruct (join_unknown_code s message from code uuid4_hex8 Hfrom Hcode Hfam)
    as (H1 & H2 & H3 & _).
  auto.
Qed.

(** C7, at an input where the code departs from it. The argument is the
    marker followed by "cafeinvite_0042", which is the invite_code of no
    Family of the store. Line 97 removes the marker inside it as well (the
    slip shown for C8), the lookup is made with "cafe0042" and finds the
    second Family: the sender, who had a User in the first Family, is moved
    to the second one and is told that the family was joined, not that the
    code is invalid. *)
Theorem unknown_code_moves_sender :
  invite_code_arg "/start invite_cafeinvite_0042"
  = Some (invite_argument "cafeinvite_0042")
  /\ code_after_marker (invite_argument "cafeinvite_0042") = Some "cafeinvite_0042"
  /\ select_family_by_code sample "cafeinvite_0042" = None
  /\ lookup_code (Some (invite_argument "cafeinvite_0042")) = Some "cafe0042"
  /\ select_family_by_code sample "cafe0042" = Some family_2
  /\ select_user sample 100 = Some anna
  /\ User.family_id anna = Some 1
  /\ out_replies (cmd_start sample
                    (mkMessage (Some from_anna) "/start invite_cafeinvite_0042")
                    "0badf00d") = [JoinedFamily]
  /\ out_error (cmd_start sample
                  (mkMessage (Some from_anna) "/start invite_cafeinvite_0042")
                  "0badf00d") = None
  /\ select_user (out_store
                    (cmd_start sample
                       (mkMessage (Some from_anna) "/start invite_cafeinvite_0042")
                       "0badf00d")) 100
     = Some (User.mk 100 (Some "anna") (Some 2)).
Proof. repeat split; reflexivity. Qed.

(** ** The constraints of the schema hold along every run *)

Section Keys.
Context {A K : Type}.
Variable key : A -> K.

Lemma NoDup_keys_snoc (l : list A) (x : A) :
  NoDup (map key l) -> ~ In (key x) (map key l) -> NoDup (map key (l ++ [x])).
Proof.
  intros Hl Hx. rewrite map_app. apply NoDup_app; [exact Hl | |].
  - simpl. constructor; [simpl; tauto | constructor].
  - intros a Ha [<- | []]. contradiction.
Qed.

Lemma keys_map_stable (f : A -> A) (l : list A) :
  (forall x, key (f x) = key x) -> map key (map f l) = map key l.
Proof. intros Hf. rewrite map_map. apply map_ext. exact Hf. Qed.

Lemma NoDup_keys_filter (p : A -> bool) (l : list A) :
  NoDup (map key l) -> NoDup (map key (filter p l)).
Proof.
  induction l as [|x l IH]; simpl; [trivial|].
  intros H. inversion H as [|? ? Hx Hl]; subst.
  destruct (p x); [|auto]. simpl. constructor; [|auto].
  intros Hin. apply Hx. apply in_map_iff in Hin. destruct Hin as (y & <- & Hy).
  apply filter_In in Hy. apply in_map. tauto.
Qed.

End Keys.

Lemma no_user_key (l : list User.t) (telegram_id : Z) :
  existsb (fun r => User.telegram_id r =? telegram_id) l = false ->
  ~ In telegram_id (map User.telegram_id l).
Proof.
  intros H Hin. apply in_map_iff in Hin. destruct Hin as (u & <- & Hu).
  assert (E : existsb (fun r => User.telegram_id r =? User.telegram_id u) l = true).
  { apply existsb_exists. exists u. split; [exact Hu | apply Z.eqb_refl]. }
  congruence.
Qed.

Lemma no_item_key (l : list Item.t) (item_id : string) :
  existsb (fun r => String.eqb (Item.id r) item_id) l = false ->
  ~ In item_id (map Item.id l).
Proof.
  intros H Hin. apply in_map_iff in Hin. destruct Hin as (i & <- & Hi).
  exact (proj1 (In_existsb_id l (Item.id i)) H i Hi eq_refl).
Qed.

Lemma fk_family_same (s s' : Store) (x : option Z) :
  families s' = families s -> fk_family s' x = fk_family s x.
Proof. intros H. unfold fk_family. now rewrite H. Qed.

Lemma fk_family_more (s s' : Store) (l : list Family.t) (x : option Z) :
  families s' = families s ++ l -> fk_family s x = true -> fk_family s' x = true.
Proof.
  intros H. unfold fk_family. destruct x as [f|]; [|trivial].
  rewrite H, existsb_app. intros ->. reflexivity.
Qed.

Lemma insert_family_ok (s s' : Store) (code : string) (f : Family.t) :
  store_ok s -> insert_family s code = Ok s' f -> store_ok s'.
Proof.
  intros (Hf & Hu & Hi & Hc & Hfu & Hfi). unfold insert_family.
  destruct (existsb _ (families s)) eqn:E; [discriminate|]. intros [= <- <-].
  unfold store_ok. cbn [families users items].
  split; [|split; [exact Hu|split; [exact Hi|split; [|split]]]].
  - apply NoDup_keys_snoc; [exact Hf|]. cbn [Family.id].
    intros Hin. apply in_map_iff in Hin. destruct Hin as (g & Hg & Hin).
    apply next_family_id_above in Hin. lia.
  - assert (Hfree : forall g, In g (families s) -> Family.invite_code g <> Some code).
    { apply select_family_by_code_none. apply find_none_existsb. exact E. }
    intros g h c Hg Hh Hgc Hhc.
    apply in_app_or in Hg. apply in_app_or in Hh.
    destruct Hg as [Hg | [<- | []]], Hh as [Hh | [<- | []]].
    + exact (Hc g h c Hg Hh Hgc Hhc).
    + cbn in Hhc. exfalso. apply (Hfree g Hg). congruence.
    + cbn in Hgc. exfalso. apply (Hfree h Hh). congruence.
    + reflexivity.
  - intros u Hin. eapply fk_family_more; [reflexivity | auto].
  - intros i Hin. eapply fk_family_more; [reflexivity | auto].
Qed.

Lemma insert_user_ok (s s' : Store) (u u' : User.t) :
  store_ok s -> insert_user s u = Ok s' u' -> store_ok s'.
Proof.
  intros (Hf & Hu & Hi & Hc & Hfu & Hfi). unfold insert_user.
  destruct (existsb _ (users s)) eqn:E; [discriminate|].
  destruct (fk_family s (User.family_id u)) eqn:Efk; [|discriminate].
  intros [= <- <-]. unfold store_ok. cbn [families users items].
  split; [exact Hf|split; [|split; [exact Hi|split; [exact Hc|split]]]].
  - apply NoDup_keys_snoc; [exact Hu | now apply no_user_key].
  - intros r Hin. apply in_app_or in Hin. destruct Hin as [Hin | [<- | []]].
    + exact (Hfu r Hin).
    + exact Efk.
  - exact Hfi.
Qed.

Lemma set_user_family_ok (s s' : Store) (u u' : User.t) (fid : Z) :
  store_ok s -> set_user_family s u fid = Ok s' u' -> store_ok s'.
Proof.
  intros (Hf & Hu & Hi & Hc & Hfu & Hfi). unfold set_user_family.
  destruct (fk_family s (Some fid)) eqn:Efk; [|discriminate].
  intros [= <- <-]. unfold store_ok. cbn [families users items].
  split; [exact Hf|split; [|split; [exact Hi|split; [exact Hc|split]]]].
  - rewrite keys_map_stable; [exact Hu|].
    intros r. now destruct (User.telegram_id r =? User.telegram_id u).
  - intros r Hin. apply in_map_iff in Hin. destruct Hin as (r0 & <- & Hin).
    destruct (User.telegram_id r0 =? User.telegram_id u); [exact Efk | exact (Hfu r0 Hin)].
  - exact Hfi.
Qed.

Lemma insert_item_ok (s s' : Store) (i i' : Item.t) :
  store_ok s -> insert_item s i = Ok s' i' -> store_ok s'.
Proof.
  intros (Hf & Hu & Hi & Hc & Hfu & Hfi). unfold insert_item.
  destruct (existsb _ (items s)) eqn:E; [discriminate|].
  destruct (fk_family s (Item.family_id i)) eqn:Efk; [|discriminate].
  intros [= <- <-]. unfold store_ok. cbn [families users items].
  split; [exact Hf|split; [exact Hu|split; [|split; [exact Hc|split]]]].
  - apply NoDup_keys_snoc; [exact Hi | now apply no_item_key].
  - exact Hfu.
  - intros r Hin. apply in_app_or in Hin. destruct Hin as [Hin | [<- | []]].
    + exact (Hfi r Hin).
    + exact Efk.
Qed.

Lemma delete_item_row_ok (s : Store) (i : Item.t) :
  store_ok s -> store_ok (delete_item_row s i).
Proof.
  intros (Hf & Hu & Hi & Hc & Hfu & Hfi). unfold store_ok, delete_item_row.
  cbn [families users items].
  split; [exact Hf|split; [exact Hu|split; [|split; [exact Hc|split]]]].
  - now apply NoDup_keys_filter.
  - exact Hfu.
  - intros r Hin. apply filter_In in Hin. exact (Hfi r (proj1 Hin)).
Qed.

Lemma update_item_row_ok (s : Store) (i : Item.t) (updates : ItemUpdate) :
  store_ok s -> store_ok (update_item_row s i updates).
Proof.
  intros (Hf & Hu & Hi & Hc & Hfu & Hfi). unfold store_ok, update_item_row.
  cbn [families users items].
  split; [exact Hf|split; [exact Hu|split; [|split; [exact Hc|split]]]].
  - rewrite keys_map_stable; [exact Hi|].
    intros r. destruct (String.eqb (Item.id r) (Item.id i)); [|reflexivity].
    apply apply_updates_key.
  - exact Hfu.
  - intros r Hin. apply in_map_iff in Hin. destruct Hin as (r0 & <- & Hin).
    destruct (String.eqb (Item.id r0) (Item.id i)); [|exact (Hfi r0 Hin)].
    destruct (apply_updates_key updates r0) as [_ ->]. exact (Hfi r0 Hin).
Qed.

Lemma ensure_user_and_family_ok (s : Store) (telegram_id : Z)
    (username : option string) (uuid4_hex8 : string) :
  store_ok s ->
  store_ok (store_after s (ensure_user_and_family s telegram_id username uuid4_hex8)).
Proof.
  intros Hok. unfold ensure_user_and_family.
  destruct (select_user s telegram_id); [exact Hok|].
  destruct (insert_family s uuid4_hex8) as [s1 f|e] eqn:E1; [|exact Hok].
  apply (insert_family_ok s s1 uuid4_hex8 f Hok) in E1.
  destruct (insert_user s1 _) as [s2 u|e] eqn:E2; [|exact Hok].
  exact (insert_user_ok s1 s2 _ u E1 E2).
Qed.

(** Every handler takes a store that meets the constraints to one that
    meets them. *)
Lemma store_ok_kept (s : Store) :
  store_ok s ->
  (forall telegram_id, store_ok (store_after s (get_items s telegram_id)))
  /\ (forall item telegram_id, store_ok (store_after s (create_item s item telegram_id)))
  /\ (forall item_id updates telegram_id,
        store_ok (store_after s (update_item s item_id updates telegram_id)))
  /\ (forall item_id telegram_id,
        store_ok (store_after s (delete_item s item_id telegram_id)))
  /\ (forall message draw, store_ok (out_store (cmd_start s message draw))).
Proof.
  intros Hok. split; [|split; [|split; [|split]]].
  - intros tg. unfold get_items. now destruct (select_user s tg).
  - intros item tg. unfold create_item. destruct (select_user s tg); [|exact Hok].
    destruct (insert_item s _) as [s' i|e] eqn:E; [|exact Hok].
    exact (insert_item_ok s s' _ i Hok E).
  - intros item_id updates tg. unfold update_item.
    destruct (select_user s tg) as [u|]; [|exact Hok].
    destruct (select_item s item_id (User.family_id u)); [|exact Hok].
    now apply update_item_row_ok.
  - intros item_id tg. unfold delete_item.
    destruct (select_user s tg) as [u|]; [|exact Hok].
    destruct (select_item s item_id (User.family_id u)); [|exact Hok].
    now apply delete_item_row_ok.
  - intros message draw. unfold cmd_start.
    destruct (from_user message) as [from|]; [|exact Hok]. cbv zeta.
    destruct (lookup_code _) as [code|].
    + destruct (select_family_by_code s code) as [family|].
      * destruct (select_user s (tg_id from)) as [user|].
        -- destruct (negb _); [|exact Hok].
           destruct (set_user_family s user (Family.id family)) as [s' u|e] eqn:E;
             [|exact Hok].
           exact (set_user_family_ok s s' user u (Family.id family) Hok E).
        -- destruct (insert_user s _) as [s' u|e] eqn:E; [|exact Hok].
           exact (insert_user_ok s s' _ u Hok E).
      * now apply ensure_user_and_family_ok.
    + pose proof (ensure_user_and_family_ok s (tg_id from) (tg_username from) draw Hok)
        as H.
      destruct (ensure_user_and_family s (tg_id from) (tg_username from) draw);
        exact H.
Qed.

Example sample_ok : store_ok sample.
Proof.
  unfold store_ok, sample. cbn [families users items map].
  repeat split.
  - repeat constructor; simpl; intuition discriminate.
  - repeat constructor; simpl; intuition discriminate.
  - repeat constructor; simpl; intuition discriminate.
  - intros f g code [<- | [<- | []]] [<- | [<- | []]]; simpl; congruence.
  - intros u [<- | [<- | []]]; reflexivity.
  - intros i [<- | [<- | []]]; reflexivity.
Qed.

(** ** A shared list, end to end

    A first user is provisioned with a family of her own; a second user
    joins it with the invite code and creates an item; the first user's
    list shows the item, not bought. *)
Example shared_list :
  let s1 := store_after empty_store
              (ensure_user_and_family empty_store 100 (Some "anna") "1a2b3c4d") in
  let s2 := out_store (cmd_start s1 (mkMessage (Some (mkTgUser 200 None))
                                               "/start invite_1a2b3c4d") "cafe0042") in
  let s3 := store_after s2 (create_item s2 (mkItemCreate "1" "Milk" false "") 200) in
  s2 = {| families := [family_1];
          users := [anna; User.mk 200 None (Some 1)];
          items := [] |}
  /\ get_items s2 100 = Ok s2 []
  /\ get_items s2 200 = Ok s2 []
  /\ get_items s3 100
     = Ok s3 [Item.mk "1" (Some "Milk") (Some false) (Some "") (Some 1)]
  /\ get_items s3 200 = get_items s3 100.
Proof. repeat split; reflexivity. Qed.

(** * Further properties of the handlers *)

(** ** Lists of rows *)

Section Rows.
Context {A : Type}.
Variables p q : A -> bool.

Lemma filter_swap (l : list A) : filter p (filter q l) = filter q (filter p l).
Proof.
  induction l as [|x l IH]; simpl; [reflexivity|].
  destruct (q x) eqn:Eq, (p x) eqn:Ep; simpl; rewrite ?Eq, ?Ep, IH; reflexivity.
Qed.

Lemma filter_absorb (l : list A) :
  (forall x, In x l -> p x = true -> q x = true) ->
  filter p (filter q l) = filter p l.
Proof.
  induction l as [|x l IH]; simpl; intros H; [reflexivity|].
  assert (IH' := IH (fun y Hy => H y (or_intror Hy))).
  destruct (p x) eqn:Ep.
  - rewrite (H x (or_introl eq_refl) Ep). simpl. now rewrite Ep, IH'.
  - destruct (q x); simpl; rewrite ?Ep; exact IH'.
Qed.

Lemma filter_map_comm (f : A -> A) (l : list A) :
  (forall x, p (f x) = p x) -> filter p (map f l) = map f (filter p l).
Proof.
  intros Hf. induction l as [|x l IH]; simpl; [reflexivity|].
  rewrite Hf. destruct (p x); simpl; now rewrite IH.
Qed.

Lemma filter_map_fixed (f : A -> A) (l : list A) :
  (forall x, p (f x) = p x) ->
  (forall x, In x l -> p x = true -> f x = x) ->
  filter p (map f l) = filter p l.
Proof.
  intros Hp Hf. rewrite (filter_map_comm f l Hp).
  transitivity (map (fun x => x) (filter p l)); [|apply map_id].
  apply map_ext_in. intros x Hx. apply filter_In in Hx. now apply Hf.
Qed.

End Rows.

Lemma NoDup_key_inj {A K : Type} (key : A -> K) (l : list A) (x y : A) :
  NoDup (map key l) -> In x l -> In y l -> key x = key y -> x = y.
Proof.
  induction l as [|z l IH]; simpl; [tauto|].
  intros H Hx Hy E. inversion H as [|? ? Hz Hl]; subst.
  destruct Hx as [-> | Hx], Hy as [-> | Hy].
  - reflexivity.
  - exfalso. apply Hz. rewrite E. now apply in_map.
  - exfalso. apply Hz. rewrite <- E. now apply in_map.
  - now apply IH.
Qed.

(** ** POST /items, then the listings *)

Lemma create_item_inv (s s' : Store) (item : ItemCreate) (telegram_id : Z)
    (row : Item.t) :
  create_item s item telegram_id = Ok s' row ->
  exists creator,
    select_user s telegram_id = Some creator
    /\ Item.family_id row = User.family_id creator
    /\ Item.id row = ic_id item
    /\ families s' = families s
    /\ users s' = users s
    /\ items s' = items s ++ [row].
Proof.
  unfold create_item, insert_item.
  destruct (select_user s telegram_id) as [creator|]; [|discriminate].
  destruct (_ || _); [discriminate|]. intros [= <- <-].
  exists creator. repeat split; reflexivity.
Qed.

(** X2. After a successful POST /items the listing of every member of the
    creator's family holds the new item together with the items of the
    former listing, each as often as before, in some order. *)
Theorem create_item_listed (s s' : Store) (item : ItemCreate) (telegram_id : Z)
    (row : Item.t) :
  create_item s item telegram_id = Ok s' row ->
  exists creator,
    select_user s telegram_id = Some creator
    /\ forall caller user,
         select_user s caller = Some user ->
         User.family_id user = User.family_id creator ->
         exists l l',
           get_items s caller = Ok s l
           /\ get_items s' caller = Ok s' l'
           /\ In row l'
           /\ Permutation l' (row :: l).
Proof.
  intros H. destruct (create_item_inv s s' item telegram_id row H)
    as (creator & Hc & Hfam & _ & _ & Hu & Hi).
  exists creator. split; [exact Hc|]. intros caller user Hcaller Hsame.
  exists (select_items_of_family s (User.family_id user)),
         (select_items_of_family s (User.family_id user) ++ [row]).
  unfold get_items at 1. rewrite Hcaller. split; [reflexivity|]. split.
  - unfold get_items, select_user. rewrite Hu. fold (select_user s caller).
    rewrite Hcaller. unfold select_items_of_family.
    rewrite Hi, filter_app. simpl. now rewrite Hfam, Hsame, opt_Z_eqb_refl.
  - split; [apply in_or_app; right; left; reflexivity|].
    apply Permutation_sym, Permutation_cons_append.
Qed.

Lemma create_item_listed_witness :
  exists creator,
    select_user sample 100 = Some creator
    /\ forall caller user,
         select_user sample caller = Some user ->
         User.family_id user = User.family_id creator ->
         exists l l',
           get_items sample caller = Ok sample l
           /\ get_items (store_after sample (create_item sample eggs 100)) caller
              = Ok (store_after sample (create_item sample eggs 100)) l'
           /\ In (Item.mk "i3" (Some "Eggs") (Some false) (Some "dairy") (Some 1)) l'
           /\ Permutation l' (Item.mk "i3" (Some "Eggs") (Some false) (Some "dairy")
                                      (Some 1) :: l).
Proof.
  apply (create_item_listed sample (store_after sample (create_item sample eggs 100))
                            eggs 100).
  reflexivity.
Defined.

(** X3. Item ids are global: POST /items with an id that a row of any
    family already has ends with the store's conflict, and on a store that
    meets the schema's constraints this is the only way it can end with it. *)
Theorem create_item_conflict (s : Store) (item : ItemCreate) (telegram_id : Z)
    (user : User.t) :
  select_user s telegram_id = Some user ->
  (forall i, In i (items s) -> Item.id i = ic_id item ->
             create_item s item telegram_id = Raise IntegrityError)
  /\ (store_ok s ->
      create_item s item telegram_id = Raise IntegrityError ->
      exists i, In i (items s) /\ Item.id i = ic_id item).
Proof.
  intros Hu. unfold create_item, insert_item. rewrite Hu.
  cbn [Item.id Item.family_id]. split.
  - intros i Hin Hid.
    replace (existsb _ (items s)) with true; [reflexivity|].
    symmetry. apply existsb_exists. exists i. split; [exact Hin|].
    now apply String.eqb_eq.
  - intros (_ & _ & _ & _ & Hfu & _).
    apply find_some in Hu. rewrite (Hfu user (proj1 Hu)). simpl.
    rewrite orb_false_r.
    destruct (existsb _ (items s)) eqn:E; [|discriminate]. intros _.
    apply existsb_exists in E. destruct E as (i & Hin & E).
    exists i. split; [exact Hin | now apply String.eqb_eq].
Qed.

Lemma create_item_conflict_witness :
  create_item sample (mkItemCreate "i2" "Tea" false "drinks") 100
  = Raise IntegrityError
  /\ exists i, In i (items sample) /\ Item.id i = "i2".
Proof.
  pose proof (create_item_conflict sample (mkItemCreate "i2" "Tea" false "drinks")
                                   100 anna eq_refl) as [H1 H2].
  assert (E : create_item sample (mkItemCreate "i2" "Tea" false "drinks") 100
              = Raise IntegrityError).
  { apply (H1 bread); [right; left; reflexivity | reflexivity]. }
  split; [exact E | exact (H2 sample_ok E)].
Defined.

(** ** DELETE /items/{item_id}, then the store *)

Lemma delete_item_inv (s s' : Store) (item_id : string) (telegram_id : Z)
    (status : string) :
  delete_item s item_id telegram_id = Ok s' status ->
  exists user item,
    select_user s telegram_id = Some user
    /\ select_item s item_id (User.family_id user) = Some item
    /\ status = "deleted"
    /\ families s' = families s
    /\ users s' = users s
    /\ items s' = filter (fun r => negb (String.eqb (Item.id r) item_id)) (items s).
Proof.
  unfold delete_item.
  destruct (select_user s telegram_id) as [user|]; [|discriminate].
  destruct (select_item s item_id (User.family_id user)) as [item|] eqn:Hi;
    [|discriminate].
  intros [= <- <-]. exists user, item.
  destruct (select_item_some s item_id _ item Hi) as (_ & Hid & _).
  unfold delete_item_row. cbn [families users items]. rewrite Hid.
  repeat split; first [reflexivity | exact Hi].
Qed.

(** X4. A successful DELETE answers "deleted" and takes away every row with
    that id and no other row: the other rows keep their order, families and
    users are as before, every listing is the former listing without the
    item, and a second DELETE or a PUT on the same id ends with not found. *)
Theorem delete_item_removes (s s' : Store) (item_id : string) (telegram_id : Z)
    (status : string) :
  delete_item s item_id telegram_id = Ok s' status ->
  status = "deleted"
  /\ item_absent s' item_id
  /\ items s' = filter (fun r => negb (String.eqb (Item.id r) item_id)) (items s)
  /\ families s' = families s
  /\ users s' = users s
  /\ delete_item s' item_id telegram_id = Raise item_not_found
  /\ (forall updates,
        update_item s' item_id updates telegram_id = Raise item_not_found)
  /\ (forall caller l,
        get_items s caller = Ok s l ->
        get_items s' caller
        = Ok s' (filter (fun r => negb (String.eqb (Item.id r) item_id)) l)).
Proof.
  intros H. destruct (delete_item_inv s s' item_id telegram_id status H)
    as (user & item & Hu & _ & Hst & Hf & Hus & Hi).
  assert (Habs : item_absent s' item_id).
  { intros i Hin. rewrite Hi in Hin. apply filter_In in Hin.
    destruct Hin as [_ Hne]. apply negb_true_iff in Hne.
    now apply String.eqb_neq. }
  assert (Hu' : select_user s' telegram_id = Some user).
  { unfold select_user. rewrite Hus. exact Hu. }
  assert (Hnone : select_item s' item_id (User.family_id user) = None).
  { apply select_item_none. now apply item_absent_not_in_family. }
  split; [exact Hst|]. split; [exact Habs|]. split; [exact Hi|].
  split; [exact Hf|]. split; [exact Hus|].
  split; [unfold delete_item; now rewrite Hu', Hnone|].
  split; [intros updates; unfold update_item; now rewrite Hu', Hnone|].
  intros caller l. unfold get_items, select_user. rewrite Hus.
  destruct (find _ (users s)) as [u|]; [|discriminate]. intros [= <-].
  unfold select_items_of_family. rewrite Hi, filter_swap. reflexivity.
Qed.

Lemma delete_item_removes_witness :
  item_absent (store_after sample (delete_item sample "i1" 100)) "i1"
  /\ delete_item (store_after sample (delete_item sample "i1" 100)) "i1" 100
     = Raise item_not_found.
Proof.
  destruct (delete_item_removes sample
              (store_after sample (delete_item sample "i1" 100)) "i1" 100
              "deleted" eq_refl)
    as (_ & Habs & _ & _ & _ & Hagain & _).
  split; [exact Habs | exact Hagain].
Defined.

(** ** PUT /items/{item_id}, then the listings *)

Lemma update_item_inv (s s' : Store) (item_id : string) (updates : ItemUpdate)
    (telegram_id : Z) (item' : Item.t) :
  update_item s item_id updates telegram_id = Ok s' item' ->
  exists user item,
    select_user s telegram_id = Some user
    /\ select_item s item_id (User.family_id user) = Some item
    /\ Item.id item = item_id
    /\ item' = apply_updates updates item
    /\ families s' = families s
    /\ users s' = users s
    /\ items s' = map (updated_row item_id updates) (items s).
Proof.
  unfold update_item.
  destruct (select_user s telegram_id) as [user|]; [|discriminate].
  destruct (select_item s item_id (User.family_id user)) as [item|] eqn:Hi;
    [|discriminate].
  intros [= <- <-]. exists user, item.
  destruct (select_item_some s item_id _ item Hi) as (_ & Hid & _).
  unfold update_item_row, updated_row. cbn [families users items]. rewrite Hid.
  repeat split; first [reflexivity | exact Hi].
Qed.

Lemma updated_row_family (item_id : string) (updates : ItemUpdate)
    (fam : option Z) (r : Item.t) :
  opt_Z_eqb (Item.family_id (updated_row item_id updates r)) fam
  = opt_Z_eqb (Item.family_id r) fam.
Proof.
  unfold updated_row. destruct (String.eqb (Item.id r) item_id); [|reflexivity].
  now destruct (apply_updates_key updates r) as [_ ->].
Qed.

(** X5. After a successful PUT every listing holds the items of the former
    listing, the fields applied to the item of that id and the others as
    they were, each as often as before, in some order; the returned item is
    in the listing of the caller. *)
Theorem update_item_listed (s s' : Store) (item_id : string)
    (updates : ItemUpdate) (telegram_id : Z) (item' : Item.t) :
  update_item s item_id updates telegram_id = Ok s' item' ->
  (forall caller l,
     get_items s caller = Ok s l ->
     exists l',
       get_items s' caller = Ok s' l'
       /\ Permutation l' (map (updated_row item_id updates) l))
  /\ exists l, get_items s' telegram_id = Ok s' l /\ In item' l.
Proof.
  intros H. destruct (update_item_inv s s' item_id updates telegram_id item' H)
    as (user & item & Hu & Hitem & Hid & -> & _ & Hus & Hi).
  assert (Hlist : forall caller l,
             get_items s caller = Ok s l ->
             get_items s' caller = Ok s' (map (updated_row item_id updates) l)).
  { intros caller l. unfold get_items, select_user. rewrite Hus.
    destruct (find _ (users s)) as [u|]; [|discriminate]. intros [= <-].
    unfold select_items_of_family. rewrite Hi.
    rewrite filter_map_comm by (intros r; apply updated_row_family).
    reflexivity. }
  split; [intros caller l Hl; eexists; split;
          [exact (Hlist caller l Hl) | apply Permutation_refl]|].
  eexists. split.
  - apply Hlist. unfold get_items. rewrite Hu. reflexivity.
  - apply in_map_iff. exists item. split.
    + unfold updated_row. now rewrite Hid, String.eqb_refl.
    + apply select_items_of_family_In.
      destruct (select_item_some s item_id _ item Hitem) as (Hin & _ & Hfam).
      split; assumption.
Qed.

Lemma update_item_listed_witness :
  (forall caller l,
     get_items sample caller = Ok sample l ->
     exists l',
       get_items (store_after sample
                    (update_item sample "i1" (mkItemUpdate None (Some true) None) 100))
                 caller
       = Ok (store_after sample
               (update_item sample "i1" (mkItemUpdate None (Some true) None) 100)) l'
       /\ Permutation l' (map (updated_row "i1" (mkItemUpdate None (Some true) None)) l))
  /\ exists l,
       get_items (store_after sample
                    (update_item sample "i1" (mkItemUpdate None (Some true) None) 100))
                 100
       = Ok (store_after sample
               (update_item sample "i1" (mkItemUpdate None (Some true) None) 100)) l
       /\ In (Item.mk "i1" (Some "Milk") (Some true) (Some "dairy") (Some 1)) l.
Proof.
  apply (update_item_listed sample
           (store_after sample
              (update_item sample "i1" (mkItemUpdate None (Some true) None) 100))
           "i1" (mkItemUpdate None (Some true) None) 100).
  reflexivity.
Defined.

Lemma apply_updates_merge (u1 u2 : ItemUpdate) (r : Item.t) :
  apply_updates u2 (apply_updates u1 r) = apply_updates (merge_updates u1 u2) r.
Proof.
  destruct u1 as [[t1|] [b1|] [c1|]], u2 as [[t2|] [b2|] [c2|]]; reflexivity.
Qed.

Lemma merge_updates_same (u : ItemUpdate) : merge_updates u u = u.
Proof. destruct u as [[t|] [b|] [c|]]; reflexivity. Qed.

(** X6. Two PUTs on the same item in a row do what the one PUT does whose
    body takes each field from the second body when it has it and from the
    first otherwise; sending the same PUT again changes nothing more. *)
Theorem update_item_twice (s s1 : Store) (item_id : string) (u1 u2 : ItemUpdate)
    (telegram_id : Z) (item1 : Item.t) :
  update_item s item_id u1 telegram_id = Ok s1 item1 ->
  update_item s1 item_id u2 telegram_id
  = update_item s item_id (merge_updates u1 u2) telegram_id
  /\ update_item s1 item_id u1 telegram_id = Ok s1 item1.
Proof.
  intros H.
  assert (Hcomp : forall u,
             update_item s1 item_id u telegram_id
             = update_item s item_id (merge_updates u1 u) telegram_id).
  { intros u. revert H. unfold update_item.
    destruct (select_user s telegram_id) as [user|] eqn:Hu; [|discriminate].
    destruct (select_item s item_id (User.family_id user)) as [item|] eqn:Hi;
      [|discriminate].
    intros [= <- <-].
    replace (select_user (update_item_row s item u1) telegram_id)
      with (Some user) by (symmetry; exact Hu).
    rewrite (select_item_updated s item_id _ item u1 Hi).
    rewrite apply_updates_merge. f_equal.
    unfold update_item_row. cbn [families users items]. f_equal.
    rewrite map_map. apply map_ext. intros r.
    destruct (apply_updates_key u1 item) as [-> _].
    destruct (String.eqb (Item.id r) (Item.id item)) eqn:E.
    - destruct (apply_updates_key u1 r) as [-> _]. rewrite E.
      apply apply_updates_merge.
    - now rewrite E. }
  split; [apply Hcomp|].
  rewrite Hcomp, merge_updates_same. exact H.
Qed.

Lemma update_item_twice_witness :
  update_item (store_after sample
                 (update_item sample "i1" (mkItemUpdate (Some "Oat milk") None None)
                              100))
              "i1" (mkItemUpdate None (Some true) None) 100
  = update_item sample "i1" (mkItemUpdate (Some "Oat milk") (Some true) None) 100.
Proof.
  apply (update_item_twice sample
           (store_after sample
              (update_item sample "i1" (mkItemUpdate (Some "Oat milk") None None) 100))
           "i1" (mkItemUpdate (Some "Oat milk") None None)
           (mkItemUpdate None (Some true) None) 100
           (Item.mk "i1" (Some "Oat milk") (Some false) (Some "dairy") (Some 1))).
  reflexivity.
Defined.

(** ** Writes of one family, listings of another *)

Lemma get_items_same_users (s s' : Store) (caller : Z) (observer : User.t) :
  users s' = users s ->
  select_user s caller = Some observer ->
  get_items s' caller = Ok s' (select_items_of_family s' (User.family_id observer)).
Proof.
  intros Hus Hc. unfold get_items, select_user. rewrite Hus.
  fold (select_user s caller). now rewrite Hc.
Qed.

(** X7. On a store that meets the schema's constraints, whatever a member
    of one family sends to POST, PUT or DELETE, the listing of a member of
    another family stays the same, whether the request succeeds or not. *)
Theorem other_family_listing_kept (s : Store) (telegram_id caller : Z)
    (writer observer : User.t) :
  store_ok s ->
  select_user s telegram_id = Some writer ->
  select_user s caller = Some observer ->
  User.family_id observer <> User.family_id writer ->
  exists l,
    get_items s caller = Ok s l
    /\ (forall item,
          get_items (store_after s (create_item s item telegram_id)) caller
          = Ok (store_after s (create_item s item telegram_id)) l)
    /\ (forall item_id updates,
          get_items (store_after s (update_item s item_id updates telegram_id)) caller
          = Ok (store_after s (update_item s item_id updates telegram_id)) l)
    /\ (forall item_id,
          get_items (store_after s (delete_item s item_id telegram_id)) caller
          = Ok (store_after s (delete_item s item_id telegram_id)) l).
Proof.
  intros (_ & _ & Hkeys & _) Hw Hc Hne.
  exists (select_items_of_family s (User.family_id observer)).
  assert (Hsame : get_items s caller
                  = Ok s (select_items_of_family s (User.family_id observer))).
  { unfold get_items. now rewrite Hc. }
  (* a row the observer lists is not the writer's item *)
  assert (Hother : forall item_id item r,
             select_item s item_id (User.family_id writer) = Some item ->
             In r (items s) ->
             opt_Z_eqb (Item.family_id r) (User.family_id observer) = true ->
             String.eqb (Item.id r) item_id = false).
  { intros item_id item r Hitem Hr Hfam.
    destruct (select_item_some s item_id _ item Hitem) as (Hin & Hid & Hf).
    apply opt_Z_eqb_eq in Hfam. apply String.eqb_neq. intros E.
    assert (r = item) by (apply (NoDup_key_inj Item.id (items s)); congruence).
    subst r. congruence. }
  split; [exact Hsame|]. split; [|split].
  - intros item.
    destruct (create_item s item telegram_id) as [s' row|e] eqn:E; [|exact Hsame].
    cbn [store_after].
    destruct (create_item_inv s s' item telegram_id row E)
      as (creator & Hcr & Hfam & _ & _ & Hus & Hi).
    rewrite (get_items_same_users s s' caller observer Hus Hc). f_equal.
    unfold select_items_of_family. rewrite Hi, filter_app. simpl.
    replace (opt_Z_eqb (Item.family_id row) (User.family_id observer)) with false;
      [apply app_nil_r|].
    symmetry. destruct (opt_Z_eqb _ _) eqn:E'; [|reflexivity].
    apply opt_Z_eqb_eq in E'. congruence.
  - intros item_id updates.
    destruct (update_item s item_id updates telegram_id) as [s' item'|e] eqn:E;
      [|exact Hsame].
    cbn [store_after].
    destruct (update_item_inv s s' item_id updates telegram_id item' E)
      as (user & item & Hu & Hitem & _ & _ & _ & Hus & Hi).
    assert (user = writer) by congruence. subst user.
    rewrite (get_items_same_users s s' caller observer Hus Hc). f_equal.
    unfold select_items_of_family. rewrite Hi.
    apply filter_map_fixed; [intros r; apply updated_row_family|].
    intros r Hr Hfam. unfold updated_row.
    now rewrite (Hother item_id item r Hitem Hr Hfam).
  - intros item_id.
    destruct (delete_item s item_id telegram_id) as [s' status|e] eqn:E;
      [|exact Hsame].
    cbn [store_after].
    destruct (delete_item_inv s s' item_id telegram_id status E)
      as (user & item & Hu & Hitem & _ & _ & Hus & Hi).
    assert (user = writer) by congruence. subst user.
    rewrite (get_items_same_users s s' caller observer Hus Hc). f_equal.
    unfold select_items_of_family. rewrite Hi. apply filter_absorb.
    intros r Hr Hfam. now rewrite (Hother item_id item r Hitem Hr Hfam).
Qed.

Lemma other_family_listing_kept_witness :
  exists l,
    get_items sample 200 = Ok sample l
    /\ (forall item,
          get_items (store_after sample (create_item sample item 100)) 200
          = Ok (store_after sample (create_item sample item 100)) l)
    /\ (forall item_id updates,
          get_items (store_after sample (update_item sample item_id updates 100)) 200
          = Ok (store_after sample (update_item sample item_id updates 100)) l)
    /\ (forall item_id,
          get_items (store_after sample (delete_item sample item_id 100)) 200
          = Ok (store_after sample (delete_item sample item_id 100)) l).
Proof.
  apply (other_family_listing_kept sample 100 200 anna boris sample_ok eq_refl eq_refl).
  discriminate.
Defined.

(** ** The start command, branch by branch *)

Lemma find_snoc_other {A : Type} (p : A -> bool) (l : list A) (x : A) :
  p x = false -> find p (l ++ [x]) = find p l.
Proof.
  intros Hx. induction l as [|y l IH]; simpl; [now rewrite Hx|].
  destruct (p y); [reflexivity | exact IH].
Qed.

(** The three ways the resolver ends. *)
Lemma ensure_cases (s : Store) (telegram_id : Z) (username : option string)
    (uuid4_hex8 : string) :
  (exists user,
     select_user s telegram_id = Some user
     /\ ensure_user_and_family s telegram_id username uuid4_hex8 = Ok s user)
  \/ (select_user s telegram_id = None
      /\ select_family_by_code s uuid4_hex8 = None
      /\ ensure_user_and_family s telegram_id username uuid4_hex8
         = Ok {| families := families s
                             ++ [Family.mk (next_family_id s) (Some uuid4_hex8)];
                 users := users s
                          ++ [User.mk telegram_id username (Some (next_family_id s))];
                 items := items s |}
              (User.mk telegram_id username (Some (next_family_id s))))
  \/ (select_user s telegram_id = None
      /\ (exists f, In f (families s) /\ Family.invite_code f = Some uuid4_hex8)
      /\ ensure_user_and_family s telegram_id username uuid4_hex8
         = Raise IntegrityError).
Proof.
  destruct (select_user s telegram_id) as [user|] eqn:Hu.
  - left. exists user. split; [reflexivity | now apply ensure_existing].
  - right. destruct (select_family_by_code s uuid4_hex8) as [f|] eqn:Hf.
    + right. apply select_family_by_code_some in Hf. destruct Hf as [Hin Hc].
      split; [reflexivity|]. split; [eauto|]. now apply (ensure_collision s _ _ _ f).
    + left. split; [reflexivity|]. split; [reflexivity|]. now apply ensure_new.
Qed.

(** The ways a start command of a sender ends: in the family the code
    names (already there, moved there, or created there), or as the resolver
    ends. *)
Lemma cmd_start_cases (s : Store) (message : Message) (from : TgUser)
    (uuid4_hex8 : string) :
  from_user message = Some from ->
  (exists code family,
     lookup_code (invite_code_arg (text message)) = Some code
     /\ select_family_by_code s code = Some family
     /\ ((exists user,
            select_user s (tg_id from) = Some user
            /\ User.family_id user = Some (Family.id family)
            /\ cmd_start s message uuid4_hex8 = mkOutcome s [AlreadyInFamily] None)
         \/ (exists user,
               select_user s (tg_id from) = Some user
               /\ User.family_id user <> Some (Family.id family)
               /\ cmd_start s message uuid4_hex8
                  = mkOutcome
                      {| families := families s;
                         users := map (fun r =>
                                         if User.telegram_id r =? User.telegram_id user
                                         then User.mk (User.telegram_id r)
                                                      (User.username r)
                                                      (Some (Family.id family))
                                         else r) (users s);
                         items := items s |} [JoinedFamily] None)
         \/ (select_user s (tg_id from) = None
             /\ cmd_start s message uuid4_hex8
                = mkOutcome
                    {| families := families s;
                       users := users s
                                ++ [User.mk (tg_id from) (tg_username from)
                                            (Some (Family.id family))];
                       items := items s |} [WelcomeJoined] None)))
  \/ ((forall code,
         lookup_code (invite_code_arg (text message)) = Some code ->
         select_family_by_code s code = None)
      /\ out_store (cmd_start s message uuid4_hex8)
         = store_after s (ensure_user_and_family s (tg_id from) (tg_username from)
                                                 uuid4_hex8)
      /\ out_error (cmd_start s message uuid4_hex8)
         = error_of (ensure_user_and_family s (tg_id from) (tg_username from)
                                            uuid4_hex8)
      /\ (out_replies (cmd_start s message uuid4_hex8) = [InvalidInviteCode]
          \/ out_replies (cmd_start s message uuid4_hex8)
             = match ensure_user_and_family s (tg_id from) (tg_username from)
                                            uuid4_hex8 with
               | Ok _ _ => [WelcomeDefault]
               | Raise _ => []
               end)).
Proof.
  intros Hfrom. unfold cmd_start. rewrite Hfrom. cbv zeta.
  destruct (lookup_code (invite_code_arg (text message))) as [code|].
  - destruct (select_family_by_code s code) as [family|] eqn:Hfam.
    + left. exists code, family. split; [reflexivity|]. split; [exact Hfam|].
      destruct (select_family_by_code_some s code family Hfam) as [Hin _].
      assert (Hfk := fk_family_In s family Hin).
      destruct (select_user s (tg_id from)) as [user|] eqn:Hu.
      * destruct (opt_Z_eqb (User.family_id user) (Some (Family.id family))) eqn:E.
        -- left. exists user. apply opt_Z_eqb_eq in E. auto.
        -- right. left. exists user. split; [reflexivity|]. split.
           ++ intros E'. apply opt_Z_eqb_eq in E'. congruence.
           ++ cbn [negb]. unfold set_user_family. rewrite Hfk. reflexivity.
      * right. right. split; [reflexivity|].
        unfold insert_user. cbn [User.telegram_id User.family_id].
        unfold select_user in Hu. rewrite (proj1 (find_none_existsb _ _) Hu), Hfk.
        reflexivity.
    + right. cbn [out_store out_error out_replies].
      split; [intros c [= <-]; exact Hfam|]. auto.
  - right. split; [discriminate|].
    destruct (ensure_user_and_family s (tg_id from) (tg_username from) uuid4_hex8);
      cbn [out_store out_error out_replies store_after error_of]; auto.
Qed.

Lemma select_user_moved (s : Store) (fs : list Family.t) (rows : list Item.t)
    (user : User.t) (fid other : Z) :
  select_user {| families := fs;
                 users := map (fun r =>
                                 if User.telegram_id r =? User.telegram_id user
                                 then User.mk (User.telegram_id r) (User.username r)
                                              (Some fid)
                                 else r) (users s);
                 items := rows |} other
  = option_map (fun r => if User.telegram_id r =? User.telegram_id user
                         then User.mk (User.telegram_id r) (User.username r) (Some fid)
                         else r) (select_user s other).
Proof.
  unfold select_user. cbn [users].
  apply find_map_stable. intros r. apply moved_row_key.
Qed.

(** X8. A start command ends with an exception in one situation only: its
    sender has no User, no Family is found for the code it carries (or it
    carries none), and the code drawn for the new Family is already taken.
    The exception is then the store's uniqueness conflict and nothing is
    written. *)
Theorem cmd_start_error (s : Store) (message : Message) (uuid4_hex8 : string)
    (e : Error) :
  (out_error (cmd_start s message uuid4_hex8) = Some e
   <-> e = IntegrityError
       /\ exists from f,
            from_user message = Some from
            /\ select_user s (tg_id from) = None
            /\ In f (families s)
            /\ Family.invite_code f = Some uuid4_hex8
            /\ (forall code,
                  lookup_code (invite_code_arg (text message)) = Some code ->
                  select_family_by_code s code = None))
  /\ (out_error (cmd_start s message uuid4_hex8) = Some e ->
      out_store (cmd_start s message uuid4_hex8) = s).
Proof.
  destruct (from_user message) as [from|] eqn:Hfrom.
  - destruct (cmd_start_cases s message from uuid4_hex8 Hfrom)
      as [(code & family & Hcode & Hfam & Hjoin) | (Hnone & Hst & Herr & _)].
    + assert (Hok : out_error (cmd_start s message uuid4_hex8) = None).
      { destruct Hjoin as [(u & _ & _ & ->) | [(u & _ & _ & ->) | (_ & ->)]];
          reflexivity. }
      rewrite Hok. split; [split|]; try discriminate.
      intros (_ & from' & f & _ & _ & _ & _ & Hno).
      specialize (Hno code Hcode). congruence.
    + rewrite Herr, Hst.
      destruct (ensure_cases s (tg_id from) (tg_username from) uuid4_hex8)
        as [(u & Hu & ->) | [(Hu & Hfree & ->) | (Hu & (f & Hin & Hc) & ->)]];
        cbn [error_of store_after].
      * split; [split|]; try discriminate.
        intros (_ & from' & f & [= <-] & Hu' & _). congruence.
      * split; [split|]; try discriminate.
        intros (_ & from' & f & [= <-] & _ & Hin & Hc & _).
        rewrite select_family_by_code_none in Hfree. now apply Hfree in Hin.
      * split; [split|]; [|intros [-> _]; reflexivity|reflexivity].
        intros [= <-]. split; [reflexivity|]. exists from, f. auto.
  - unfold cmd_start. rewrite Hfrom. cbn [out_error out_store].
    split; [split|]; try discriminate.
    intros (_ & from & f & H & _). discriminate.
Qed.

Lemma cmd_start_error_witness :
  out_error (cmd_start sample join_unknown "cafe0042") = Some IntegrityError
  /\ out_store (cmd_start sample join_unknown "cafe0042") = sample.
Proof.
  assert (H : out_error (cmd_start sample join_unknown "cafe0042")
              = Some IntegrityError).
  { apply (proj1 (cmd_start_error sample join_unknown "cafe0042" IntegrityError)).
    split; [reflexivity|]. exists from_carl, family_2.
    split; [reflexivity|]. split; [reflexivity|].
    split; [right; left; reflexivity|]. split; [reflexivity|].
    intros code [= <-]. reflexivity. }
  split; [exact H|].
  exact (proj2 (cmd_start_error sample join_unknown "cafe0042" IntegrityError) H).
Defined.

(** X9. A start command of a sender that ends without exception leaves a
    User with the sender's telegram_id in the store, and it has sent exactly
    one reply. *)
Theorem cmd_start_provisions (s : Store) (message : Message) (from : TgUser)
    (uuid4_hex8 : string) :
  from_user message = Some from ->
  out_error (cmd_start s message uuid4_hex8) = None ->
  (exists user,
     select_user (out_store (cmd_start s message uuid4_hex8)) (tg_id from)
     = Some user
     /\ User.telegram_id user = tg_id from)
  /\ exists reply, out_replies (cmd_start s message uuid4_hex8) = [reply].
Proof.
  intros Hfrom.
  destruct (cmd_start_cases s message from uuid4_hex8 Hfrom)
    as [(code & family & _ & _ & Hjoin) | (_ & Hst & Herr & Hrep)].
  - destruct Hjoin as [(u & Hu & _ & ->) | [(u & Hu & _ & ->) | (Hu & ->)]];
      intros _; cbn [out_store out_replies].
    + split; [|eauto]. exists u. split; [exact Hu|].
      apply find_some in Hu. now apply Z.eqb_eq.
    + split; [|eauto]. rewrite select_user_moved, Hu. simpl.
      rewrite Z.eqb_refl. eexists. split; [reflexivity|].
      apply find_some in Hu. now apply Z.eqb_eq.
    + split; [|eauto].
      exists (User.mk (tg_id from) (tg_username from) (Some (Family.id family))).
      split; [|reflexivity].
      apply (select_user_appended s _ (User.mk (tg_id from) _ _)). exact Hu.
  - rewrite Herr, Hst.
    destruct (ensure_cases s (tg_id from) (tg_username from) uuid4_hex8)
      as [(u & Hu & E) | [(Hu & _ & E) | (_ & _ & E)]];
      rewrite E in *; cbn [error_of store_after]; [| |discriminate]; intros _.
    + split; [|destruct Hrep as [-> | ->]; eauto].
      exists u. split; [exact Hu|]. apply find_some in Hu. now apply Z.eqb_eq.
    + split; [|destruct Hrep as [-> | ->]; eauto].
      exists (User.mk (tg_id from) (tg_username from) (Some (next_family_id s))).
      split; [|reflexivity].
      apply (select_user_appended s _ (User.mk (tg_id from) _ _)). exact Hu.
Qed.

Lemma cmd_start_provisions_witness :
  (exists user,
     select_user (out_store (cmd_start sample join_unknown "0badf00d")) 300
     = Some user
     /\ User.telegram_id user = 300)
  /\ exists reply, out_replies (cmd_start sample join_unknown "0badf00d") = [reply].
Proof.
  apply (cmd_start_provisions sample join_unknown from_carl "0badf00d");
    reflexivity.
Defined.

(** ** What a start command and POST /auth leave alone *)

Lemma sender_step_refl (telegram_id : Z) (s : Store) : sender_step telegram_id s s.
Proof.
  unfold sender_step. split; [reflexivity|].
  split; [exists []; now rewrite app_nil_r|].
  split; [exists []; now rewrite app_nil_r|]. reflexivity.
Qed.

Lemma sender_step_appended (s : Store) (fs : list Family.t) (u : User.t) :
  (exists l, fs = families s ++ l) ->
  sender_step (User.telegram_id u) s
    {| families := fs; users := users s ++ [u]; items := items s |}.
Proof.
  intros (l & ->). unfold sender_step. cbn [families users items].
  split; [reflexivity|]. split; [exists l; apply Permutation_refl|].
  split; [exists [User.telegram_id u]; now rewrite map_app|].
  intros other Hne. unfold select_user. cbn [users].
  apply find_snoc_other. now apply Z.eqb_neq.
Qed.

Lemma sender_step_moved (s : Store) (user : User.t) (fid : Z) :
  sender_step (User.telegram_id user) s
    {| families := families s;
       users := map (fun r => if User.telegram_id r =? User.telegram_id user
                              then User.mk (User.telegram_id r) (User.username r)
                                           (Some fid)
                              else r) (users s);
       items := items s |}.
Proof.
  unfold sender_step. cbn [families users items].
  split; [reflexivity|]. split; [exists []; now rewrite app_nil_r|]. split.
  - exists []. rewrite app_nil_r, keys_map_stable; [apply Permutation_refl|].
    intros r. now destruct (User.telegram_id r =? User.telegram_id user).
  - intros other Hne. rewrite select_user_moved.
    destruct (select_user s other) as [r|] eqn:Hr; [|reflexivity]. simpl.
    apply find_some in Hr. destruct Hr as [_ Hr]. apply Z.eqb_eq in Hr.
    replace (User.telegram_id r =? User.telegram_id user) with false; [reflexivity|].
    symmetry. apply Z.eqb_neq. congruence.
Qed.

Lemma ensure_sender_step (s : Store) (telegram_id : Z) (username : option string)
    (uuid4_hex8 : string) :
  sender_step telegram_id s
    (store_after s (ensure_user_and_family s telegram_id username uuid4_hex8)).
Proof.
  destruct (ensure_cases s telegram_id username uuid4_hex8)
    as [(u & _ & ->) | [(_ & _ & ->) | (_ & _ & ->)]]; cbn [store_after].
  - apply sender_step_refl.
  - apply (sender_step_appended s _ (User.mk telegram_id username _)). eauto.
  - apply sender_step_refl.
Qed.

Lemma auth_store_ensure (s : Store) (user_info : UserInfo) (uuid4_hex8 : string) :
  auth_store (auth_user s user_info uuid4_hex8)
  = store_after s (ensure_user_and_family s (ui_telegram_id user_info)
                                          (ui_username user_info) uuid4_hex8).
Proof.
  unfold auth_user.
  destruct (ensure_user_and_family s _ _ uuid4_hex8) as [s1 user|e]; [|reflexivity].
  now destruct (select_family_by_id s1 (User.family_id user)).
Qed.

(** X10. A start command and a POST /auth act for their sender only: they
    leave [items] as it is, they keep every Family and the telegram_id of
    every User and may add new ones, and the User of every other
    telegram_id is the same as before. A start command without sender does
    nothing. *)
Theorem sender_only (s : Store) (uuid4_hex8 : string) :
  (forall message from,
     from_user message = Some from ->
     sender_step (tg_id from) s (out_store (cmd_start s message uuid4_hex8)))
  /\ (forall message,
        from_user message = None ->
        cmd_start s message uuid4_hex8 = mkOutcome s [] None)
  /\ (forall user_info,
        sender_step (ui_telegram_id user_info) s
                    (auth_store (auth_user s user_info uuid4_hex8))).
Proof.
  split; [|split].
  - intros message from Hfrom.
    destruct (cmd_start_cases s message from uuid4_hex8 Hfrom)
      as [(code & family & _ & _ & Hjoin) | (_ & -> & _)].
    + destruct Hjoin as [(u & _ & _ & ->) | [(u & Hu & _ & ->) | (_ & ->)]];
        cbn [out_store].
      * apply sender_step_refl.
      * apply find_some in Hu. destruct Hu as [_ Hu]. apply Z.eqb_eq in Hu.
        rewrite <- Hu. apply sender_step_moved.
      * apply (sender_step_appended s _ (User.mk (tg_id from) _ _)).
        exists []. now rewrite app_nil_r.
    + apply ensure_sender_step.
  - intros message Hfrom. unfold cmd_start. now rewrite Hfrom.
  - intros user_info. rewrite auth_store_ensure. apply ensure_sender_step.
Qed.

Lemma sender_only_witness :
  sender_step 300 sample (out_store (cmd_start sample join_family_1 "0badf00d"))
  /\ cmd_start sample (mkMessage None "/start") "0badf00d" = mkOutcome sample [] None.
Proof.
  split.
  - apply (proj1 (sender_only sample "0badf00d") join_family_1 from_carl).
    reflexivity.
  - apply (proj1 (proj2 (sender_only sample "0badf00d"))). reflexivity.
Defined.

(** ** Every User in a Family *)

Lemma every_user_in_family_same (s s' : Store) :
  families s' = families s -> users s' = users s ->
  every_user_in_family s -> every_user_in_family s'.
Proof. unfold every_user_in_family. intros -> ->. trivial. Qed.

Lemma ensure_every_user_in_family (s : Store) (telegram_id : Z)
    (username : option string) (uuid4_hex8 : string) :
  every_user_in_family s ->
  every_user_in_family
    (store_after s (ensure_user_and_family s telegram_id username uuid4_hex8)).
Proof.
  intros H.
  destruct (ensure_cases s telegram_id username uuid4_hex8)
    as [(u & _ & ->) | [(_ & _ & ->) | (_ & _ & ->)]]; cbn [store_after]; trivial.
  intros u Hin. cbn [users families] in *. apply in_app_or in Hin.
  destruct Hin as [Hin | [<- | []]].
  - destruct (H u Hin) as (f & Hf & E). exists f. split; [|exact E].
    apply in_or_app. now left.
  - eexists. split; [apply in_or_app; right; left; reflexivity | reflexivity].
Qed.

(** Every handler keeps each User in a Family of the store. *)
Lemma every_user_in_family_kept (s : Store) :
  every_user_in_family s ->
  (forall message draw,
     every_user_in_family (out_store (cmd_start s message draw)))
  /\ (forall user_info draw,
        every_user_in_family (auth_store (auth_user s user_info draw)))
  /\ (forall telegram_id,
        every_user_in_family (store_after s (get_items s telegram_id)))
  /\ (forall item telegram_id,
        every_user_in_family (store_after s (create_item s item telegram_id)))
  /\ (forall item_id updates telegram_id,
        every_user_in_family
          (store_after s (update_item s item_id updates telegram_id)))
  /\ (forall item_id telegram_id,
        every_user_in_family (store_after s (delete_item s item_id telegram_id))).
Proof.
  intros H. split; [|split; [|split; [|split; [|split]]]].
  - intros message draw.
    destruct (from_user message) as [from|] eqn:Hfrom;
      [|unfold cmd_start; now rewrite Hfrom].
    destruct (cmd_start_cases s message from draw Hfrom)
      as [(code & family & _ & Hfam & Hjoin) | (_ & -> & _)];
      [|now apply ensure_every_user_in_family].
    destruct (select_family_by_code_some s code family Hfam) as [Hin _].
    destruct Hjoin as [(u & _ & _ & ->) | [(u & _ & _ & ->) | (_ & ->)]];
      cbn [out_store]; trivial.
    + intros r Hr. cbn [users families] in *. apply in_map_iff in Hr.
      destruct Hr as (r0 & <- & Hr0).
      destruct (User.telegram_id r0 =? User.telegram_id u); [eauto | auto].
    + intros r Hr. cbn [users families] in *. apply in_app_or in Hr.
      destruct Hr as [Hr | [<- | []]]; [auto | eauto].
  - intros user_info draw. rewrite auth_store_ensure.
    now apply ensure_every_user_in_family.
  - intros tg. unfold get_items. now destruct (select_user s tg).
  - intros item tg.
    destruct (create_item s item tg) as [s' row|e] eqn:E; [|exact H].
    destruct (create_item_inv s s' item tg row E) as (_ & _ & _ & _ & Hf & Hu & _).
    exact (every_user_in_family_same s s' Hf Hu H).
  - intros item_id updates tg.
    destruct (update_item s item_id updates tg) as [s' item'|e] eqn:E; [|exact H].
    destruct (update_item_inv s s' item_id updates tg item' E)
      as (_ & _ & _ & _ & _ & _ & Hf & Hu & _).
    exact (every_user_in_family_same s s' Hf Hu H).
  - intros item_id tg.
    destruct (delete_item s item_id tg) as [s' st|e] eqn:E; [|exact H].
    destruct (delete_item_inv s s' item_id tg st E)
      as (_ & _ & _ & _ & _ & Hf & Hu & _).
    exact (every_user_in_family_same s s' Hf Hu H).
Qed.

(** ** POST /auth *)

Lemma ensure_returns_stored (s s' : Store) (telegram_id : Z)
    (username : option string) (uuid4_hex8 : string) (user : User.t) :
  ensure_user_and_family s telegram_id username uuid4_hex8 = Ok s' user ->
  select_user s' telegram_id = Some user /\ User.telegram_id user = telegram_id.
Proof.
  destruct (ensure_cases s telegram_id username uuid4_hex8)
    as [(u & Hu & ->) | [(Hu & _ & ->) | (_ & _ & ->)]]; [| |discriminate].
  - intros [= <- <-]. split; [exact Hu|].
    apply find_some in Hu. now apply Z.eqb_eq.
  - intros [= <- <-]. split; [|reflexivity].
    apply (select_user_appended s _ (User.mk telegram_id username _)). exact Hu.
Qed.

Lemma select_family_by_id_some (s : Store) (fid : option Z) (f : Family.t) :
  select_family_by_id s fid = Some f -> In f (families s) /\ fid = Some (Family.id f).
Proof.
  intros H. apply find_some in H. destruct H as [Hin H].
  apply opt_Z_eqb_eq in H. auto.
Qed.

Lemma select_family_by_id_found (s : Store) (f : Family.t) :
  In f (families s) -> select_family_by_id s (Some (Family.id f)) <> None.
Proof.
  intros Hin H. unfold select_family_by_id in H.
  apply (proj1 (find_none_forall _ _)) with (x := f) in H; [|exact Hin].
  cbn in H. rewrite Z.eqb_refl in H. discriminate.
Qed.

(** X12. Whenever POST /auth answers, the user of the answer is the stored
    User of the telegram_id sent, the family is the Family of the store this
    user references, and the members are exactly the Users of the store that
    reference this Family, the user among them. *)
Theorem auth_user_response (s : Store) (user_info : UserInfo) (uuid4_hex8 : string)
    (resp : AuthResponse) :
  auth_result (auth_user s user_info uuid4_hex8) = inl resp ->
  select_user (auth_store (auth_user s user_info uuid4_hex8))
              (ui_telegram_id user_info) = Some (resp_user resp)
  /\ User.telegram_id (resp_user resp) = ui_telegram_id user_info
  /\ In (resp_family resp) (families (auth_store (auth_user s user_info uuid4_hex8)))
  /\ User.family_id (resp_user resp) = Some (Family.id (resp_family resp))
  /\ In (resp_user resp) (resp_members resp)
  /\ (forall m,
        In m (resp_members resp)
        <-> In m (users (auth_store (auth_user s user_info uuid4_hex8)))
            /\ User.family_id m = Some (Family.id (resp_family resp))).
Proof.
  unfold auth_user.
  destruct (ensure_user_and_family s _ _ uuid4_hex8) as [s1 user|e] eqn:E;
    [|discriminate].
  destruct (select_family_by_id s1 (User.family_id user)) as [family|] eqn:Hf;
    [|discriminate].
  cbn [auth_result auth_store]. intros [= <-].
  cbn [resp_user resp_family resp_members].
  destruct (ensure_returns_stored s s1 _ _ _ user E) as [Hu Hid].
  destruct (select_family_by_id_some s1 _ family Hf) as [Hin Hfam].
  assert (Hmem : forall m,
             In m (select_members s1 (Family.id family))
             <-> In m (users s1) /\ User.family_id m = Some (Family.id family)).
  { intros m. unfold select_members. rewrite filter_In, opt_Z_eqb_eq. tauto. }
  repeat (split; [assumption|]). split; [|exact Hmem].
  apply Hmem. split; [|exact Hfam]. apply find_some in Hu. tauto.
Qed.

Lemma auth_user_response_witness :
  select_user (auth_store (auth_user sample (mkUserInfo 100 None None None None)
                                     "0badf00d")) 100 = Some anna
  /\ In anna [anna].
Proof.
  destruct (auth_user_response sample (mkUserInfo 100 None None None None)
                               "0badf00d" (mkAuthResponse anna family_1 [anna])
                               eq_refl)
    as (Hu & _ & _ & _ & Hin & _).
  split; [exact Hu | exact Hin].
Defined.

(** X13. First contact through POST /auth. On a store that meets the
    schema's constraints, a telegram_id without User and a drawn code no
    Family has give a new Family with that code under an id no Family had,
    a new User with the telegram_id and the username sent (the other fields
    of the body are not stored), and an answer whose members are this User
    alone. *)
Theorem auth_user_first_contact (s : Store) (user_info : UserInfo)
    (uuid4_hex8 : string) :
  store_ok s ->
  select_user s (ui_telegram_id user_info) = None ->
  select_family_by_code s uuid4_hex8 = None ->
  exists family,
    auth_user s user_info uuid4_hex8
    = mkAuthOutcome
        {| families := families s ++ [family];
           users := users s
                    ++ [User.mk (ui_telegram_id user_info) (ui_username user_info)
                                (Some (Family.id family))];
           items := items s |}
        (inl (mkAuthResponse
                (User.mk (ui_telegram_id user_info) (ui_username user_info)
                         (Some (Family.id family)))
                family
                [User.mk (ui_telegram_id user_info) (ui_username user_info)
                         (Some (Family.id family))]))
    /\ Family.invite_code family = Some uuid4_hex8
    /\ ~ In (Family.id family) (map Family.id (families s)).
Proof.
  intros (_ & _ & _ & _ & Hfu & _) Hu Hfree.
  assert (Hfresh : ~ In (next_family_id s) (map Family.id (families s))).
  { intros Hin. apply in_map_iff in Hin. destruct Hin as (g & Hg & Hin).
    apply next_family_id_above in Hin. lia. }
  exists (Family.mk (next_family_id s) (Some uuid4_hex8)).
  split; [|split; [reflexivity | exact Hfresh]].
  unfold auth_user. rewrite (ensure_new s _ _ _ Hu Hfree).
  cbn [User.family_id Family.id].
  unfold select_family_by_id. cbn [families].
  rewrite find_app_none.
  - simpl. rewrite Z.eqb_refl. cbn [Family.id]. do 2 f_equal. f_equal.
    unfold select_members. cbn [users]. rewrite filter_app.
    replace (filter _ (users s)) with (@nil User.t).
    + simpl. now rewrite Z.eqb_refl.
    + symmetry. apply filter_find_none. apply find_none_forall.
      intros u Hin. specialize (Hfu u Hin).
      destruct (User.family_id u) as [f|]; [|reflexivity]. simpl in *.
      apply Z.eqb_neq. intros ->. apply Hfresh.
      apply existsb_exists in Hfu. destruct Hfu as (g & Hg & E).
      apply Z.eqb_eq in E. rewrite <- E. now apply in_map.
  - apply find_none_forall. intros g Hin. simpl. apply Z.eqb_neq.
    intros E. apply Hfresh. rewrite <- E. now apply in_map.
Qed.

Lemma auth_user_first_contact_witness :
  exists family,
    auth_user sample (mkUserInfo 300 (Some "carl") (Some "Carl") None None) "0badf00d"
    = mkAuthOutcome
        {| families := families sample ++ [family];
           users := users sample ++ [User.mk 300 (Some "carl") (Some (Family.id family))];
           items := items sample |}
        (inl (mkAuthResponse
                (User.mk 300 (Some "carl") (Some (Family.id family))) family
                [User.mk 300 (Some "carl") (Some (Family.id family))]))
    /\ Family.invite_code family = Some "0badf00d"
    /\ ~ In (Family.id family) (map Family.id (families sample)).
Proof.
  apply (auth_user_first_contact sample
           (mkUserInfo 300 (Some "carl") (Some "Carl") None None) "0badf00d"
           sample_ok); reflexivity.
Defined.

(** X14. When every User of the store references an existing Family,
    POST /auth never ends in the AttributeError of line 147, and for a
    telegram_id that has a User it answers with that User and writes
    nothing. *)
Theorem auth_user_answers (s : Store) (user_info : UserInfo) (uuid4_hex8 : string) :
  every_user_in_family s ->
  auth_result (auth_user s user_info uuid4_hex8) <> inr AttributeError
  /\ (forall user,
        select_user s (ui_telegram_id user_info) = Some user ->
        auth_store (auth_user s user_info uuid4_hex8) = s
        /\ exists resp,
             auth_result (auth_user s user_info uuid4_hex8) = inl resp
             /\ resp_user resp = user).
Proof.
  intros Hall. unfold auth_user.
  destruct (ensure_cases s (ui_telegram_id user_info) (ui_username user_info)
                         uuid4_hex8)
    as [(u & Hu & ->) | [(Hu & Hfree & ->) | (Hu & (f & Hin & Hc) & ->)]].
  - destruct (Hall u (proj1 (find_some _ _ Hu))) as (f & Hin & Hfam).
    rewrite Hfam.
    destruct (select_family_by_id s (Some (Family.id f))) as [g|] eqn:Hg;
      [|now apply select_family_by_id_found in Hg].
    cbn [auth_result auth_store]. split; [discriminate|].
    intros user Huser. assert (user = u) by congruence. subst user.
    split; [reflexivity|]. eexists. split; reflexivity.
  - cbn [User.family_id].
    destruct (select_family_by_id _ (Some (next_family_id s))) as [g|] eqn:Hg.
    + cbn [auth_result]. split; [discriminate | intros user Huser; congruence].
    + exfalso. revert Hg.
      apply (select_family_by_id_found _ (Family.mk (next_family_id s)
                                                    (Some uuid4_hex8))).
      cbn [families]. apply in_or_app. right. left. reflexivity.
  - cbn [auth_result]. split; [discriminate | intros user Huser; congruence].
Qed.

Example sample_members : every_user_in_family sample.
Proof.
  intros u [<- | [<- | []]].
  - exists family_1. split; [left; reflexivity | reflexivity].
  - exists family_2. split; [right; left; reflexivity | reflexivity].
Qed.

Lemma auth_user_answers_witness :
  auth_result (auth_user sample (mkUserInfo 100 (Some "ann") None None None)
                         "0badf00d") <> inr AttributeError
  /\ auth_store (auth_user sample (mkUserInfo 100 (Some "ann") None None None)
                           "0badf00d") = sample
  /\ exists resp,
       auth_result (auth_user sample (mkUserInfo 100 (Some "ann") None None None)
                              "0badf00d") = inl resp
       /\ resp_user resp = anna.
Proof.
  destruct (auth_user_answers sample (mkUserInfo 100 (Some "ann") None None None)
                              "0badf00d" sample_members) as [Hno Hanswer].
  split; [exact Hno|]. apply (Hanswer anna). reflexivity.
Defined.

(** A User with a null family_id, which the schema allows and no handler
    writes, makes POST /auth fail on [family.id]. *)
Example auth_user_stray :
  auth_user with_stray (mkUserInfo 400 None None None None) "0badf00d"
  = mkAuthOutcome with_stray (inr AttributeError).
Proof. reflexivity. Qed.

(** ** Joining, then listing *)

Lemma join_sender_family (s : Store) (message : Message) (from : TgUser)
    (code : string) (family : Family.t) (uuid4_hex8 : string) :
  from_user message = Some from ->
  lookup_code (invite_code_arg (text message)) = Some code ->
  select_family_by_code s code = Some family ->
  (exists user,
     select_user (out_store (cmd_start s message uuid4_hex8)) (tg_id from)
     = Some user
     /\ User.family_id user = Some (Family.id family))
  /\ sender_step (tg_id from) s (out_store (cmd_start s message uuid4_hex8)).
Proof.
  intros Hfrom Hcode Hfam.
  destruct (cmd_start_cases s message from uuid4_hex8 Hfrom)
    as [(code' & family' & Hcode' & Hfam' & Hjoin) | (Hnone & _)].
  - assert (code' = code) by congruence. subst code'.
    assert (family' = family) by congruence. subst family'.
    destruct Hjoin as [(u & Hu & Hm & ->) | [(u & Hu & _ & ->) | (Hu & ->)]];
      cbn [out_store].
    + split; [eauto | apply sender_step_refl].
    + split.
      * rewrite select_user_moved, Hu. simpl. rewrite Z.eqb_refl.
        eexists. split; reflexivity.
      * apply find_some in Hu. destruct Hu as [_ Hu]. apply Z.eqb_eq in Hu.
        rewrite <- Hu. apply sender_step_moved.
    + split.
      * exists (User.mk (tg_id from) (tg_username from) (Some (Family.id family))).
        split; [|reflexivity].
        apply (select_user_appended s _ (User.mk (tg_id from) _ _)). exact Hu.
      * apply (sender_step_appended s _ (User.mk (tg_id from) _ _)).
        exists []. now rewrite app_nil_r.
  - specialize (Hnone code Hcode). congruence.
Qed.

(** X15. After a start command with a valid invite code of family F, the
    sender's listing is the items of F, whatever family the sender was in
    before, and it is the listing every User that was in F gets. *)
Theorem join_then_list (s : Store) (message : Message) (from : TgUser)
    (code : string) (family : Family.t) (uuid4_hex8 : string) :
  from_user message = Some from ->
  lookup_code (invite_code_arg (text message)) = Some code ->
  select_family_by_code s code = Some family ->
  get_items (out_store (cmd_start s message uuid4_hex8)) (tg_id from)
  = Ok (out_store (cmd_start s message uuid4_hex8))
       (select_items_of_family s (Some (Family.id family)))
  /\ (forall member user,
        select_user s member = Some user ->
        User.family_id user = Some (Family.id family) ->
        get_items (out_store (cmd_start s message uuid4_hex8)) member
        = get_items (out_store (cmd_start s message uuid4_hex8)) (tg_id from)).
Proof.
  intros Hfrom Hcode Hfam.
  destruct (join_sender_family s message from code family uuid4_hex8
                               Hfrom Hcode Hfam)
    as ((u & Hu & Hm) & Hitems & _ & _ & Hothers).
  assert (Hmine : get_items (out_store (cmd_start s message uuid4_hex8)) (tg_id from)
                  = Ok (out_store (cmd_start s message uuid4_hex8))
                       (select_items_of_family s (Some (Family.id family)))).
  { unfold get_items. rewrite Hu, Hm. unfold select_items_of_family.
    now rewrite Hitems. }
  split; [exact Hmine|].
  intros member user Hmember Hfamily.
  destruct (Z.eq_dec member (tg_id from)) as [-> | Hne]; [reflexivity|].
  rewrite Hmine. unfold get_items. rewrite (Hothers member Hne), Hmember, Hfamily.
  unfold select_items_of_family. now rewrite Hitems.
Qed.

Lemma join_then_list_witness :
  get_items (out_store (cmd_start sample join_family_1 "0badf00d")) 300
  = Ok (out_store (cmd_start sample join_family_1 "0badf00d")) [milk]
  /\ get_items (out_store (cmd_start sample join_family_1 "0badf00d")) 100
     = get_items (out_store (cmd_start sample join_family_1 "0badf00d")) 300.
Proof.
  destruct (join_then_list sample join_family_1 from_carl "1a2b3c4d" family_1
                           "0badf00d" eq_refl eq_refl eq_refl) as [H1 H2].
  split; [exact H1 | exact (H2 100 anna eq_refl eq_refl)].
Defined.

(** ** From the text of the command to the code *)

Lemma append_empty_r (s : string) : (s ++ "")%string = s.
Proof. induction s as [|c s IH]; simpl; [reflexivity | now rewrite IH]. Qed.

Lemma append_snoc (w : string) (c : ascii) (s : string) :
  ((w ++ String c "") ++ s)%string = (w ++ String c s)%string.
Proof. induction w as [|a w IH]; simpl; [reflexivity | now rewrite IH]. Qed.

Lemma append_String_nonempty (w : string) (c : ascii) :
  String.eqb (w ++ String c "") "" = false.
Proof. now destruct w. Qed.

(** A word without whitespace, followed by nothing or by whitespace, is the
    next field [str.split()] returns. *)
Lemma split_from_word (s w t : string) :
  has_space s = false ->
  String.eqb (w ++ s) "" = false ->
  match t with
  | EmptyString => True
  | String c _ => isspace c = true
  end ->
  split_from w (s ++ t) = (w ++ s)%string :: split_from "" t.
Proof.
  revert w. induction s as [|c s IH]; intros w Hs Hw Ht.
  - rewrite append_empty_r in *. simpl.
    destruct t as [|c t]; simpl; rewrite ?Ht, Hw; reflexivity.
  - cbn [has_space] in Hs. apply orb_false_iff in Hs. destruct Hs as [Hc Hs].
    cbn [append split_from]. rewrite Hc.
    rewrite (IH (w ++ String c "")%string Hs); [now rewrite append_snoc| |exact Ht].
    rewrite append_snoc. now destruct w.
Qed.

(** X16. The start command of an invite link gives back its code: when the
    code has no whitespace and the marker does not occur in it, the second
    field of the text "/start invite_<code>", alone or followed by
    whitespace and anything else, is "invite_<code>" and the family is
    looked up with exactly <code>. *)
Theorem start_command_round_trip (code rest : string) :
  has_space code = false ->
  occurs marker code = false ->
  match rest with
  | EmptyString => True
  | String c _ => isspace c = true
  end ->
  invite_code_arg (start_command code ++ rest) = Some (invite_argument code)
  /\ lookup_code (invite_code_arg (start_command code ++ rest)) = Some code.
Proof.
  intros Hsp Hocc Hrest.
  assert (Harg : invite_code_arg (start_command code ++ rest)
                 = Some (invite_argument code)).
  { unfold invite_code_arg, start_command, invite_argument, marker, split.
    simpl. rewrite (split_from_word code "invite_" rest Hsp); [reflexivity| |exact Hrest].
    reflexivity. }
  split; [exact Harg|].
  rewrite Harg, lookup_code_invite_argument. unfold replace, marker. simpl String.eqb.
  cbv iota. now rewrite replace_from_no_occurrence.
Qed.

Lemma start_command_round_trip_witness :
  invite_code_arg (start_command "1a2b3c4d" ++ " now") = Some "invite_1a2b3c4d"
  /\ lookup_code (invite_code_arg (start_command "1a2b3c4d" ++ " now"))
     = Some "1a2b3c4d".
Proof.
  apply (start_command_round_trip "1a2b3c4d" " now"); reflexivity.
Defined.

(** ** Any sequence of requests *)

Lemma handle_store_ok (s : Store) (r : Request) : store_ok s -> store_ok (handle s r).
Proof.
  intros H. destruct (store_ok_kept s H) as (Hget & Hcreate & Hupdate & Hdelete & Hstart).
  destruct r; cbn [handle]; auto.
  rewrite auth_store_ensure. now apply ensure_user_and_family_ok.
Qed.

Lemma handle_every_user_in_family (s : Store) (r : Request) :
  every_user_in_family s -> every_user_in_family (handle s r).
Proof.
  intros H. destruct (every_user_in_family_kept s H)
    as (Hstart & Hauth & Hget & Hcreate & Hupdate & Hdelete).
  destruct r; cbn [handle]; auto.
Qed.

Lemma empty_store_ok : store_ok empty_store /\ every_user_in_family empty_store.
Proof.
  unfold store_ok, every_user_in_family, empty_store. cbn [families users items map].
  repeat split; try constructor; intros; contradiction.
Qed.

Lemma run_kept (P : Store -> Prop) (requests : list Request) (s : Store) :
  (forall s0 r, P s0 -> P (handle s0 r)) -> P s -> P (run s requests).
Proof.
  intros Hstep. unfold run. revert s.
  induction requests as [|r rs IH]; intros s H; [exact H|].
  simpl. apply IH. now apply Hstep.
Qed.

(** X11. The schema's constraints hold along every run: if primary keys and
    invite codes are unique and every family_id is null or references a
    Family, and every User references a Family, then the same is true after
    any sequence of start commands, POST /auth and item requests, failed
    ones included. In particular it is true of every store reached from the
    empty one. *)
Theorem invariants_along_runs (s : Store) (requests : list Request) :
  (store_ok s -> store_ok (run s requests))
  /\ (every_user_in_family s -> every_user_in_family (run s requests))
  /\ store_ok (run empty_store requests)
  /\ every_user_in_family (run empty_store requests).
Proof.
  split; [apply run_kept, handle_store_ok|].
  split; [apply run_kept, handle_every_user_in_family|].
  split; (apply run_kept; [|apply empty_store_ok]).
  - apply handle_store_ok.
  - apply handle_every_user_in_family.
Qed.

Lemma invariants_along_runs_witness :
  store_ok (run sample [Start join_family_1 "0badf00d"; CreateItem eggs 300;
                        DeleteItem "i1" 300; Auth (mkUserInfo 500 None None None None)
                                                  "00c0ffee"]).
Proof.
  apply (proj1 (invariants_along_runs sample _) sample_ok).
Defined.

Example run_sample :
  run sample [Start join_family_1 "0badf00d"; CreateItem eggs 300;
              DeleteItem "i1" 300; Auth (mkUserInfo 500 None None None None)
                                        "00c0ffee"]
  = {| families := [family_1; family_2; Family.mk 3 (Some "00c0ffee")];
       users := [anna; boris; User.mk 300 (Some "carl") (Some 1);
                 User.mk 500 None (Some 3)];
       items := [bread;
                 Item.mk "i3" (Some "Eggs") (Some false) (Some "dairy") (Some 1)] |}.
Proof. reflexivity. Qed.

